(** * Bootstrap validation of ai-services: a shallow embedding

    The command [bootstrap validate] of
    [cmd/ai-services/cmd/bootstrap.go] runs a fixed checklist against
    the host: a privilege check that aborts the run, then six checks
    whose failures are collected and reported together.

    The embedding keeps the shape of the Go code.  Go strings are byte
    strings and are modelled by [string] (one [ascii] per byte); the Go
    [int] is 64 bits wide and is modelled by [Z] with its bounds written
    out; an [error] is modelled by its message.  The ambient host state
    (effective user id, files, target architecture, the result of the
    Podman validator) is a record that every check reads, and the
    calls a check makes to the logger and to the host are collected in
    a trace, so that a check having run is a statement about the trace. *)

From Stdlib Require Import ZArith List Bool Lia.
From Stdlib Require Import Strings.Ascii Strings.String.
From Stdlib Require Import Numbers.DecimalString Numbers.DecimalPos.
Import ListNotations.

Open Scope string_scope.
Open Scope Z_scope.

(* ================================================================= *)
(** ** Byte strings: slicing *)

(** The double quote, as a byte and as a one-byte string. *)
Definition dquote_byte : ascii := "034"%char.
Definition dquote : string := String dquote_byte EmptyString.
Definition newline_byte : ascii := "010"%char.
Definition newline : string := String newline_byte EmptyString.

(** [s[i:]] and [s[:i]] for an index within bounds.  Go panics when the
    index is out of range; every slice taken by the command is within
    bounds (see [Index_bound] and [IndexByte_bound]). *)

Fixpoint drop (n : nat) (s : string) : string :=
  match n, s with
  | O, _ => s
  | S n', String _ s' => drop n' s'
  | S _, EmptyString => EmptyString
  end.

Fixpoint take (n : nat) (s : string) : string :=
  match n, s with
  | O, _ => EmptyString
  | S n', String c s' => String c (take n' s')
  | S _, EmptyString => EmptyString
  end.

Definition slice_from (s : string) (i : Z) : string := drop (Z.to_nat i) s.
Definition slice_to (s : string) (i : Z) : string := take (Z.to_nat i) s.
Definition len (s : string) : Z := Z.of_nat (String.length s).

(* ================================================================= *)
(** ** The functions of package [strings] the command calls *)

Module strings.

Fixpoint HasPrefix (s prefix : string) {struct prefix} : bool :=
  match prefix, s with
  | EmptyString, _ => true
  | String _ _, EmptyString => false
  | String c p', String d s' => Ascii.eqb c d && HasPrefix s' p'
  end.

(** [Index] is the byte index of the first instance of [substr] in
    [s], or [-1]. *)
Fixpoint Index (s substr : string) : Z :=
  if HasPrefix s substr then 0
  else match s with
       | EmptyString => -1
       | String _ s' =>
           let i := Index s' substr in
           if i =? -1 then -1 else i + 1
       end.

Fixpoint IndexByte (s : string) (c : ascii) : Z :=
  match s with
  | EmptyString => -1
  | String d s' =>
      if Ascii.eqb d c then 0
      else let i := IndexByte s' c in
           if i =? -1 then -1 else i + 1
  end.

Definition Contains (s substr : string) : bool := Index s substr >=? 0.

Fixpoint TrimLeft (s cutset : string) : string :=
  match s with
  | EmptyString => EmptyString
  | String c s' =>
      if IndexByte cutset c >=? 0 then TrimLeft s' cutset else s
  end.

Fixpoint TrimRight (s cutset : string) : string :=
  match s with
  | EmptyString => EmptyString
  | String c s' =>
      match TrimRight s' cutset with
      | EmptyString =>
          if IndexByte cutset c >=? 0 then EmptyString
          else String c EmptyString
      | r => String c r
      end
  end.

(** [Trim] removes every leading and trailing byte that is in
    [cutset] (the command's cutset is the one ASCII byte 34, the double
    quote).  This is Go's [Trim] for a cutset of ASCII bytes, which Go
    compares byte by byte; a cutset with a byte of 128 or more Go
    decodes into runes, and that is not modelled. *)
Definition Trim (s cutset : string) : string :=
  TrimLeft (TrimRight s cutset) cutset.

(** [Count] is the number of non-overlapping instances of a non-empty
    [substr]; the loop runs at most once per byte of [s]. *)
Fixpoint Count_loop (fuel : nat) (s substr : string) (n : Z) : Z :=
  match fuel with
  | O => n
  | S fuel' =>
      let i := Index s substr in
      if i =? -1 then n
      else Count_loop fuel' (slice_from s (i + len substr)) substr (n + 1)
  end.

Definition Count (s substr : string) : Z :=
  Count_loop (String.length s) s substr 0.

Fixpoint explode (s : string) : list string :=
  match s with
  | EmptyString => []
  | String c s' => String c EmptyString :: explode s'
  end.

(** The loop of [genSplit]: [Count s sep] pieces are cut off at the
    successive instances of [sep], the rest is the last piece. *)
Fixpoint genSplit_loop (n : nat) (s sep : string) : list string :=
  match n with
  | O => [s]
  | S n' =>
      let m := Index s sep in
      if m <? 0 then [s]
      else slice_to s m :: genSplit_loop n' (slice_from s (m + len sep)) sep
  end.

(** [Split s sep] for a non-empty [sep]; for the empty separator Go
    cuts after each UTF-8 sequence, which for ASCII text is after each
    byte. *)
Definition Split (s sep : string) : list string :=
  match sep with
  | EmptyString => explode s
  | _ => genSplit_loop (Z.to_nat (Count s sep)) s sep
  end.

End strings.

(* ================================================================= *)
(** ** [strconv.Atoi] *)

(** The Go [int] of the supported target (ppc64le, as on amd64 and
    arm64) has 64 bits.  [Atoi] returns a value and an error; the value
    is [0] on a syntax error and the nearest bound of [int] on a range
    error. *)

Module strconv.

Inductive NumError : Set := ErrSyntax | ErrRange.

Definition intSize : Z := 64.
Definition maxUint64 : Z := 2 ^ 64 - 1.
Definition maxInt : Z := 2 ^ (intSize - 1) - 1.
Definition minInt : Z := - 2 ^ (intSize - 1).

Definition byte_val (c : ascii) : Z := Z.of_N (N_of_ascii c).

(** The digit loop of [ParseUint] for base 10: a byte that is not a
    digit is a syntax error; [n >= cutoff] means [n * 10] overflows,
    and the sum wraps around 64 bits before it is compared. *)
Fixpoint ParseUint_loop (cutoff maxVal : Z) (s : string) (n : Z)
  : Z * option NumError :=
  match s with
  | EmptyString => (n, None)
  | String c s' =>
      if (48 <=? byte_val c) && (byte_val c <=? 57) then
        let d := byte_val c - 48 in
        if n >=? cutoff then (maxVal, Some ErrRange)
        else
          let n10 := (n * 10) mod 2 ^ 64 in
          let n1 := (n10 + d) mod 2 ^ 64 in
          if (n1 <? n10) || (n1 >? maxVal) then (maxVal, Some ErrRange)
          else ParseUint_loop cutoff maxVal s' n1
      else (0, Some ErrSyntax)
  end.

Definition ParseUint (s : string) : Z * option NumError :=
  match s with
  | EmptyString => (0, Some ErrSyntax)
  | _ => ParseUint_loop (maxUint64 / 10 + 1) (2 ^ 64 - 1) s 0
  end.

Definition is_sign (c : ascii) : bool :=
  Ascii.eqb c "-"%char || Ascii.eqb c "+"%char.

Definition ParseInt (s : string) : Z * option NumError :=
  match s with
  | EmptyString => (0, Some ErrSyntax)
  | String c s' =>
      let neg := Ascii.eqb c "-"%char in
      let s1 := if is_sign c then s' else s in
      match ParseUint s1 with
      | (_, Some ErrSyntax) => (0, Some ErrSyntax)
      | (un, _) =>
          let cutoff := 2 ^ (intSize - 1) in
          if negb neg && (un >=? cutoff) then (cutoff - 1, Some ErrRange)
          else if neg && (un >? cutoff) then (- cutoff, Some ErrRange)
          else (if neg then - un else un, None)
      end
  end.

(** The fast path of [Atoi], for fewer than 19 bytes: no overflow is
    possible, [ch -= '0'] wraps around a byte. *)
Fixpoint Atoi_fast_loop (s : string) (n : Z) : Z * option NumError :=
  match s with
  | EmptyString => (n, None)
  | String c s' =>
      let ch := (byte_val c - 48) mod 256 in
      if ch >? 9 then (0, Some ErrSyntax)
      else Atoi_fast_loop s' (n * 10 + ch)
  end.

Definition Atoi (s : string) : Z * option NumError :=
  let sLen := len s in
  if (0 <? sLen) && (sLen <? 19) then
    match s with
    | EmptyString => (0, Some ErrSyntax)
    | String c0 s' =>
        let s1 := if is_sign c0 then s' else s in
        if len s1 <? 1 then (0, Some ErrSyntax)
        else
          match Atoi_fast_loop s1 0 with
          | (n, None) => (if Ascii.eqb c0 "-"%char then - n else n, None)
          | (_, Some e) => (0, Some e)
          end
    end
  else ParseInt s.

End strconv.

(* ================================================================= *)
(** ** [fmt]: the verb [%d] *)

Definition fmt_d (n : Z) : string := NilZero.string_of_int (Z.to_int n).

(* ================================================================= *)
(** ** Host, trace and the monad of checks *)

(** An [error] is modelled by the text of [err.Error()]. *)
Definition error : Set := string.

Inductive Level : Set := DebugLevel | InfoLevel | ErrorLevel.

Inductive Field : Set :=
| zap_Error (err : error)
| zap_Int (key : string) (val : Z)
| zap_String (key val : string).

(** What a run does to its surroundings: calls to the logger, and the
    calls that read the host. *)
Inductive Event : Set :=
| Log (lvl : Level) (msg : string) (fields : list Field)
| Geteuid_call
| ReadFile_call (name : string)
| Podman_call.

(** The ambient host state.  [ReadFile_result] is what [os.ReadFile]
    returns for a path: the content, or the error.  [Podman_result] is
    the error of [validators.Podman()], a collaborator outside these
    sources of which the command uses the error alone. *)
Record Host : Type := {
  euid : Z;
  GOARCH : string;
  ReadFile_result : string -> string + error;
  Podman_result : option error
}.

Definition M (A : Type) : Type := Host -> A * list Event.

Definition ret {A} (a : A) : M A := fun _ => (a, []).

Definition bind {A B} (m : M A) (k : A -> M B) : M B :=
  fun h => let '(a, t1) := m h in
           let '(b, t2) := k a h in
           (b, (t1 ++ t2)%list).

Notation "x <- m ;; k" := (bind m (fun x => k))
  (at level 61, m at next level, right associativity).
Notation "m ;; k" := (bind m (fun _ => k))
  (at level 61, right associativity).

Definition emit (e : Event) : M unit := fun _ => (tt, [e]).

Definition logger_Debug (msg : string) (fields : list Field) : M unit :=
  emit (Log DebugLevel msg fields).
Definition logger_Info (msg : string) : M unit :=
  emit (Log InfoLevel msg []).
Definition logger_Error (msg : string) : M unit :=
  emit (Log ErrorLevel msg []).

Definition os_Geteuid : M Z := fun h => (euid h, [Geteuid_call]).
Definition os_ReadFile (name : string) : M (string + error) :=
  fun h => (ReadFile_result h name, [ReadFile_call name]).
Definition runtime_GOARCH : M string := fun h => (GOARCH h, []).

(** Modelled from the spec: [validators.Podman] is not among these
    sources.  It returns version information and an error, and the
    command needs only whether it failed and the text of the error;
    the error is a field of the host. *)
Definition validators_Podman : M (option error) :=
  fun h => (Podman_result h, [Podman_call]).

(* ================================================================= *)
(** ** The checks of [bootstrap.go] *)

Definition rootCheck : M (option error) :=
  euid <- os_Geteuid ;;
  if euid =? 0 then
    logger_Debug "✅ Current user is root." [] ;;
    ret None
  else
    logger_Error "❌ Current user is not root." ;;
    logger_Debug "Effective User ID" [zap_Int "euid" euid] ;;
    ret (Some "root privileges are required to run this command").

(** [parts[0]] of a slice; [strings.Split] never returns an empty slice
    (see [Split_not_nil]). *)
Definition index0 (parts : list string) : string := nth 0 parts "".
Definition index1 (parts : list string) : string := nth 1 parts "".

Definition validateOS : M (option error) :=
  logger_Debug "Validating operating system..." [] ;;
  r <- os_ReadFile "/etc/os-release" ;;
  match r with
  | inr err => ret (Some err)
  | inl data =>
      let osInfo := data in
      let isRHEL :=
        strings.Contains osInfo "Red Hat Enterprise Linux"
        || strings.Contains osInfo ("ID=" ++ dquote ++ "rhel" ++ dquote)
        || strings.Contains osInfo "ID=rhel" in
      if negb isRHEL then
        ret (Some "❌ unsupported operating system: only RHEL is supported")
      else
        let idx := strings.Index osInfo "VERSION_ID=" in
        if idx =? -1 then ret (Some "unable to determine OS version")
        else
          let rest := slice_from osInfo (idx + len "VERSION_ID=") in
          let rest :=
            let end_ := strings.IndexByte rest newline_byte in
            if negb (end_ =? -1) then slice_to rest end_ else rest in
          let version := strings.Trim rest dquote in
          let parts := strings.Split version "." in
          let major := fst (strconv.Atoi (index0 parts)) in
          let minor :=
            if Z.of_nat (List.length parts) >? 1
            then fst (strconv.Atoi (index1 parts)) else 0 in
          if (major <? 9) || ((major =? 9) && (minor <? 6)) then
            ret (Some ("❌ unsupported RHEL version: " ++ version
                       ++ ". Minimum required version is 9.6"))
          else
            logger_Debug "✅ Operating system is RHEL"
              [zap_String "version" version] ;;
            ret None
  end.

Definition validateRHNRegistration : M (option error) :=
  logger_Debug "Validating RHN registration..." [] ;;
  ret None.

Definition validateLTCRPMRepo : M (option error) :=
  logger_Debug "Validating LTC RPM repository..." [] ;;
  ret None.

Definition validatePowerVersion : M (option error) :=
  logger_Debug "Validating IBM Power version..." [] ;;
  arch <- runtime_GOARCH ;;
  if negb (String.eqb arch "ppc64le") then
    ret (Some ("❌ unsupported architecture: " ++ arch
               ++ ". IBM Power architecture (ppc64le) is required"))
  else
    r <- os_ReadFile "/proc/cpuinfo" ;;
    if match r with
       | inl data => strings.Contains data "POWER11"
       | inr _ => false
       end
    then
      logger_Debug "✅ System is running on IBM POWER11 architecture" [] ;;
      ret None
    else
      ret (Some "❌ unsupported IBM Power version: POWER11 is required").

Definition validateRHAIISLicense : M (option error) :=
  logger_Debug "Validating RHAIIS license..." [] ;;
  ret None.

(* ================================================================= *)
(** ** The [RunE] function of [validateCmd] *)

(** [if err := check(); err != nil { validationErrors =
    append(validationErrors, err) }] *)
Definition append_if_err (validationErrors : list error) (err : option error)
  : list error :=
  match err with
  | Some e => (validationErrors ++ [e])%list
  | None => validationErrors
  end.

(** [for i, err := range validationErrors], from index [i]. *)
Fixpoint report_loop (i : Z) (validationErrors : list error) : M unit :=
  match validationErrors with
  | [] => ret tt
  | err :: rest =>
      logger_Error ("  " ++ fmt_d (i + 1) ++ ". " ++ err) ;;
      report_loop (i + 1) rest
  end.

Definition RunE : M (option error) :=
  logger_Info "Running bootstrap validation..." ;;
  let validationErrors : list error := [] in
  err <- rootCheck ;;
  match err with
  | Some e => ret (Some e)
  | None =>
      err <- validateOS ;;
      let validationErrors := append_if_err validationErrors err in
      err <- validateRHNRegistration ;;
      let validationErrors := append_if_err validationErrors err in
      err <- validateLTCRPMRepo ;;
      let validationErrors := append_if_err validationErrors err in
      err <- validators_Podman ;;
      validationErrors <-
        match err with
        | Some e =>
            logger_Debug "❌ Podman validation failed" [zap_Error e] ;;
            ret (validationErrors
                   ++ [("❌ podman validation failed: " ++ e)%string])%list
        | None =>
            logger_Debug "✅ Podman validation passed" [] ;;
            ret validationErrors
        end ;;
      err <- validatePowerVersion ;;
      let validationErrors := append_if_err validationErrors err in
      err <- validateRHAIISLicense ;;
      let validationErrors := append_if_err validationErrors err in
      if Z.of_nat (List.length validationErrors) >? 0 then
        logger_Error "❌ Validation failed with errors:" ;;
        report_loop 0 validationErrors ;;
        ret (Some (fmt_d (Z.of_nat (List.length validationErrors))
                   ++ " validation check(s) failed"))
      else
        logger_Info "✅ All validations passed" ;;
        ret None
  end.

(* ================================================================= *)
(** ** Vocabulary for the statements *)

Definition result_of {A} (m : M A) (h : Host) : A := fst (m h).
Definition trace_of {A} (m : M A) (h : Host) : list Event := snd (m h).

(** [sub] occurs in [s]. *)
Definition occurs (sub s : string) : Prop :=
  exists pre post, s = pre ++ sub ++ post.

(** The failure messages, as the source spells them. *)
Definition msg_not_root : error :=
  "root privileges are required to run this command".
Definition msg_unsupported_os : error :=
  "❌ unsupported operating system: only RHEL is supported".
Definition msg_no_version : error := "unable to determine OS version".
Definition msg_unsupported_version (version : string) : error :=
  "❌ unsupported RHEL version: " ++ version
  ++ ". Minimum required version is 9.6".
Definition msg_unsupported_arch (arch : string) : error :=
  "❌ unsupported architecture: " ++ arch
  ++ ". IBM Power architecture (ppc64le) is required".
Definition msg_unsupported_power : error :=
  "❌ unsupported IBM Power version: POWER11 is required".
Definition msg_podman (e : error) : error :=
  "❌ podman validation failed: " ++ e.
Definition msg_aggregate (n : nat) : error :=
  fmt_d (Z.of_nat n) ++ " validation check(s) failed".

(** The three markers of the supported distribution. *)
Definition marker_name : string := "Red Hat Enterprise Linux".
Definition marker_id_quoted : string := "ID=" ++ dquote ++ "rhel" ++ dquote.
Definition marker_id_plain : string := "ID=rhel".

(** The three stages of [validateOS] on the content of the release
    file, named: the distribution test, the extraction of the version
    field, and the parse of the version. *)
Definition isRHEL (osInfo : string) : bool :=
  strings.Contains osInfo marker_name
  || strings.Contains osInfo marker_id_quoted
  || strings.Contains osInfo marker_id_plain.

Definition versionField (osInfo : string) : option string :=
  let idx := strings.Index osInfo "VERSION_ID=" in
  if idx =? -1 then None
  else
    let rest := slice_from osInfo (idx + len "VERSION_ID=") in
    let end_ := strings.IndexByte rest newline_byte in
    let rest := if negb (end_ =? -1) then slice_to rest end_ else rest in
    Some (strings.Trim rest dquote).

Definition parseVersion (version : string) : Z * Z :=
  let parts := strings.Split version "." in
  (fst (strconv.Atoi (index0 parts)),
   if Z.of_nat (List.length parts) >? 1
   then fst (strconv.Atoi (index1 parts)) else 0).

Definition meetsMinimum (major minor : Z) : Prop :=
  major > 9 \/ (major = 9 /\ minor >= 6).

(** Decimal numerals and their value, independent of [strconv]. *)
Definition is_digit (c : ascii) : bool :=
  (48 <=? strconv.byte_val c) && (strconv.byte_val c <=? 57).

Fixpoint all_digits (s : string) : bool :=
  match s with
  | EmptyString => true
  | String c s' => is_digit c && all_digits s'
  end.

Definition numeral (s : string) : Prop := s <> "" /\ all_digits s = true.

Fixpoint decimal_acc (s : string) (n : Z) : Z :=
  match s with
  | EmptyString => n
  | String c s' => decimal_acc s' (n * 10 + (strconv.byte_val c - 48))
  end.

Definition decimal_value (s : string) : Z := decimal_acc s 0.

(** The report of a run that passed the privilege check: the failures
    of the six checks in the order the checks run, the aggregate error
    made of their number, and the lines that enumerate them. *)
Definition opt_list {A} (o : option A) : list A :=
  match o with Some a => [a] | None => [] end.

Definition failures (h : Host) : list error :=
  (opt_list (result_of validateOS h)
   ++ opt_list (result_of validateRHNRegistration h)
   ++ opt_list (result_of validateLTCRPMRepo h)
   ++ opt_list (option_map msg_podman (Podman_result h))
   ++ opt_list (result_of validatePowerVersion h)
   ++ opt_list (result_of validateRHAIISLicense h))%list.

Definition aggregate (errs : list error) : option error :=
  match errs with
  | [] => None
  | _ => Some (msg_aggregate (List.length errs))
  end.

Definition numbered_from (i : nat) (errs : list error) : list string :=
  map (fun p => "  " ++ fmt_d (Z.of_nat (fst p)) ++ ". " ++ snd p)
      (combine (seq i (List.length errs)) errs).

Definition report (errs : list error) : list Event :=
  match errs with
  | [] => [Log InfoLevel "✅ All validations passed" []]
  | _ => Log ErrorLevel "❌ Validation failed with errors:" []
         :: map (fun m => Log ErrorLevel m []) (numbered_from 1 errs)
  end.

Definition podman_trace (h : Host) : list Event :=
  [Podman_call;
   match Podman_result h with
   | Some e => Log DebugLevel "❌ Podman validation failed" [zap_Error e]
   | None => Log DebugLevel "✅ Podman validation passed" []
   end].

Definition root_passed : list Event :=
  [Log InfoLevel "Running bootstrap validation..." [];
   Geteuid_call;
   Log DebugLevel "✅ Current user is root." []].

Definition root_failed (h : Host) : list Event :=
  [Log InfoLevel "Running bootstrap validation..." [];
   Geteuid_call;
   Log ErrorLevel "❌ Current user is not root." [];
   Log DebugLevel "Effective User ID" [zap_Int "euid" (euid h)]].

Definition full_trace (h : Host) : list Event :=
  (root_passed
   ++ trace_of validateOS h
   ++ trace_of validateRHNRegistration h
   ++ trace_of validateLTCRPMRepo h
   ++ podman_trace h
   ++ trace_of validatePowerVersion h
   ++ trace_of validateRHAIISLicense h
   ++ report (failures h))%list.

(** The first thing each of the six checks does. *)
Definition check_markers : list Event :=
  [Log DebugLevel "Validating operating system..." [];
   Log DebugLevel "Validating RHN registration..." [];
   Log DebugLevel "Validating LTC RPM repository..." [];
   Podman_call;
   Log DebugLevel "Validating IBM Power version..." [];
   Log DebugLevel "Validating RHAIIS license..." []].

(** [l1] is a subsequence of [l2]: its events occur in [l2] in order. *)
Inductive subsequence {A} : list A -> list A -> Prop :=
| subseq_nil : forall l, subsequence [] l
| subseq_take : forall x l1 l2, subsequence l1 l2 -> subsequence (x :: l1) (x :: l2)
| subseq_skip : forall x l1 l2, subsequence l1 l2 -> subsequence l1 (x :: l2).

(* ================================================================= *)
(** ** Sample hosts *)

Definition os_release (version : string) : string :=
  "NAME=" ++ dquote ++ "Red Hat Enterprise Linux" ++ dquote ++ newline
  ++ "VERSION_ID=" ++ dquote ++ version ++ dquote ++ newline
  ++ "ID=" ++ dquote ++ "rhel" ++ dquote ++ newline.

Definition files (rel cpu : string + error) (name : string) : string + error :=
  if String.eqb name "/etc/os-release" then rel
  else if String.eqb name "/proc/cpuinfo" then cpu
  else inr ("open " ++ name ++ ": no such file or directory").

Definition cpuinfo_power11 : string :=
  "processor	: 0" ++ newline ++ "cpu		: POWER11 (architected), altivec supported"
  ++ newline.
Definition cpuinfo_power10 : string :=
  "processor	: 0" ++ newline ++ "cpu		: POWER10 (architected), altivec supported"
  ++ newline.

Definition mk_host (uid : Z) (arch : string) (rel cpu : string + error)
    (podman : option error) : Host :=
  {| euid := uid; GOARCH := arch;
     ReadFile_result := files rel cpu;
     Podman_result := podman |}.

Definition host_of (uid : Z) (version : string) (podman : option error) : Host :=
  mk_host uid "ppc64le" (inl (os_release version)) (inl cpuinfo_power11) podman.

Definition podman_missing : error :=
  "exec: podman: executable file not found in $PATH".

Definition host_ok : Host := host_of 0 "9.6" None.
Definition host_mixed : Host := host_of 0 "9.0" (Some podman_missing).
Definition host_not_root : Host := host_of 1000 "9.6" None.
Definition host_old_release : Host := host_of 0 "9.0" None.
Definition host_no_podman : Host := host_of 0 "9.6" (Some podman_missing).
Definition host_huge_version : Host := host_of 0 "99999999999999999999" None.
Definition host_abc : Host := host_of 0 "abc" None.

Definition release_without_version : string :=
  "NAME=" ++ dquote ++ "Red Hat Enterprise Linux" ++ dquote ++ newline
  ++ "ID=" ++ dquote ++ "rhel" ++ dquote ++ newline.
Definition release_other_os : string :=
  "NAME=" ++ dquote ++ "Ubuntu" ++ dquote ++ newline
  ++ "VERSION_ID=" ++ dquote ++ "24.04" ++ dquote ++ newline
  ++ "ID=ubuntu" ++ newline.

Definition host_no_version : Host :=
  mk_host 0 "ppc64le" (inl release_without_version) (inl cpuinfo_power11) None.
Definition host_other_os : Host :=
  mk_host 0 "ppc64le" (inl release_other_os) (inl cpuinfo_power11) None.
Definition host_amd64 : Host :=
  mk_host 0 "amd64" (inl (os_release "9.6")) (inl cpuinfo_power11) None.
Definition host_power10 : Host :=
  mk_host 0 "ppc64le" (inl (os_release "9.6")) (inl cpuinfo_power10) None.

Definition cpuinfo_denied : error := "open /proc/cpuinfo: permission denied".
Definition release_missing : error :=
  "open /etc/os-release: no such file or directory".

Definition host_cpuinfo_unreadable : Host :=
  mk_host 0 "ppc64le" (inl (os_release "9.6")) (inr cpuinfo_denied) None.
Definition host_release_unreadable : Host :=
  mk_host 0 "ppc64le" (inr release_missing) (inl cpuinfo_power11) None.

(* ================================================================= *)
(** ** The logger of [logger.go] *)

(** [init] builds the production configuration of zap and sets
    [cfg.Level] to [zap.InfoLevel]; [GetLogger] returns the logger built
    from it.  zap orders its levels (Debug is -1, Info 0, Error 2) and a
    logger writes an entry when the level of the entry is at least the
    level of the configuration.  (The sampling of the production
    configuration lets the first hundred entries of a message per
    second through, more than a run writes.) *)
Definition zapcore_rank (l : Level) : Z :=
  match l with
  | DebugLevel => -1
  | InfoLevel => 0
  | ErrorLevel => 2
  end.

Definition cfg_Level : Level := InfoLevel.

Definition Enabled (l : Level) : bool :=
  zapcore_rank cfg_Level <=? zapcore_rank l.

Definition is_written (e : Event) : bool :=
  match e with
  | Log l _ _ => Enabled l
  | _ => false
  end.

(** The entries of a trace that the logger writes. *)
Definition written (t : list Event) : list Event := filter is_written t.

(** The calls of a trace that read the host. *)
Definition is_host_call (e : Event) : bool :=
  match e with
  | Log _ _ _ => false
  | _ => true
  end.

Definition host_calls (t : list Event) : list Event := filter is_host_call t.

(* ================================================================= *)
(** ** Ends of a byte string *)

Definition first_byte (s : string) : option ascii :=
  match s with
  | EmptyString => None
  | String c _ => Some c
  end.

Fixpoint last_byte (s : string) : option ascii :=
  match s with
  | EmptyString => None
  | String c EmptyString => Some c
  | String _ s' => last_byte s'
  end.

(** Every byte of [s] is [c]. *)
Fixpoint only_byte (c : ascii) (s : string) : bool :=
  match s with
  | EmptyString => true
  | String d s' => Ascii.eqb d c && only_byte c s'
  end.

(* ================================================================= *)
(** ** The text of a version component *)

(** A byte below [utf8.RuneSelf]. *)
Definition ascii_byte (c : ascii) : Prop := strconv.byte_val c < 128.

(** A component without its one leading sign, and whether that sign is
    a minus. *)
Definition unsigned_part (s : string) : string :=
  match s with
  | EmptyString => EmptyString
  | String c s' => if strconv.is_sign c then s' else s
  end.

Definition negative (s : string) : bool :=
  match s with
  | EmptyString => false
  | String c _ => Ascii.eqb c "-"%char
  end.

Fixpoint leading_digits (s : string) : string :=
  match s with
  | EmptyString => EmptyString
  | String c s' => if is_digit c then String c (leading_digits s') else EmptyString
  end.

(** A decimal integer: an optional sign, then one or more digits, and
    nothing else. *)
Definition decimal_integer (s : string) : bool :=
  match unsigned_part s with
  | EmptyString => false
  | String c u => all_digits (String c u)
  end.

(** The value of the digits a component starts with, after its sign,
    and that value with the sign. *)
Definition digits_value (s : string) : Z :=
  decimal_value (leading_digits (unsigned_part s)).

Definition signed_value (s : string) : Z :=
  if negative s then - digits_value s else digits_value s.

(** What [Atoi] returns, told from the text alone: a decimal integer
    gives its value, or the bound of [int] on its side when it is out
    of range; any other text is a syntax error with the value 0, unless
    its leading digits already exceed 64 bits, which [ParseUint] reports
    as a range error before it reaches the offending byte. *)
Definition Atoi_by_text (s : string) : Z * option strconv.NumError :=
  if decimal_integer s then
    if signed_value s >? strconv.maxInt
    then (strconv.maxInt, Some strconv.ErrRange)
    else if signed_value s <? strconv.minInt
         then (strconv.minInt, Some strconv.ErrRange)
         else (signed_value s, None)
  else if digits_value s <=? strconv.maxUint64
       then (0, Some strconv.ErrSyntax)
       else (if negative s then strconv.minInt else strconv.maxInt,
             Some strconv.ErrRange).

(** A component that runs out of the range of [int] upwards or
    downwards: a decimal integer beyond the bound, or a text whose
    leading digits exceed 64 bits, on the side of its sign. *)
Definition above_int (s : string) : Prop :=
  if decimal_integer s then signed_value s > strconv.maxInt
  else digits_value s > strconv.maxUint64 /\ negative s = false.

Definition below_int (s : string) : Prop :=
  if decimal_integer s then signed_value s < strconv.minInt
  else digits_value s > strconv.maxUint64 /\ negative s = true.

(* ================================================================= *)
(** ** Fields of the release file *)

(** A field of the release file, in the sense of the specification: a
    line that starts with the key and an equals sign. *)
Definition has_field (key data : string) : bool :=
  existsb (fun line => strings.HasPrefix line (key ++ "="))
          (strings.Split data newline).

(** Release files of the supported distribution in which no line is a
    VERSION_ID field, though the text VERSION_ID= occurs: in a comment,
    and at the end of another key. *)
Definition release_commented_version : string :=
  "NAME=" ++ dquote ++ "Red Hat Enterprise Linux" ++ dquote ++ newline
  ++ "#VERSION_ID=" ++ dquote ++ "9.6" ++ dquote ++ newline
  ++ "ID=" ++ dquote ++ "rhel" ++ dquote ++ newline.

Definition release_other_key : string :=
  "NAME=" ++ dquote ++ "Red Hat Enterprise Linux" ++ dquote ++ newline
  ++ "X_VERSION_ID=" ++ dquote ++ "8.1" ++ dquote ++ newline
  ++ "ID=" ++ dquote ++ "rhel" ++ dquote ++ newline.

(* ================================================================= *)
(** ** More sample hosts *)

(** [host_ok] with one more readable file, which the command never
    opens. *)
Definition host_ok_more_files : Host :=
  {| euid := 0; GOARCH := "ppc64le";
     ReadFile_result :=
       fun name =>
         if String.eqb name "/etc/hostname" then inl "power11-lpar"
         else files (inl (os_release "9.6")) (inl cpuinfo_power11) name;
     Podman_result := None |}.

Definition host_all_fail : Host :=
  mk_host 0 "ppc64le" (inl release_other_os) (inl cpuinfo_power10)
    (Some podman_missing).

Definition release_three_components : string := os_release "9.6.1".

Definition host_commented_version : Host :=
  mk_host 0 "ppc64le" (inl release_commented_version) (inl cpuinfo_power11) None.
Definition host_other_key : Host :=
  mk_host 0 "ppc64le" (inl release_other_key) (inl cpuinfo_power11) None.
Definition host_huge_then_junk : Host := host_of 0 "99999999999999999999x" None.

(* ================================================================= *)
(** ** Tactics *)

(** Unfolds the monad of a check down to its pair of result and trace. *)
Ltac run_check :=
  cbv [result_of trace_of bind ret emit logger_Debug logger_Info logger_Error
       os_Geteuid os_ReadFile runtime_GOARCH validators_Podman fst snd].

(** Closes a goal whose hypotheses equate two distinct events or
    messages drawn from finite lists. *)
Ltac split_cases :=
  repeat match goal with
         | H : _ \/ _ |- _ => destruct H
         | H : False |- _ => destruct H
         end.

(* ================================================================= *)
(** ** Facts about byte strings *)

Section StringFacts.

Implicit Types s p sub pre post : string.

Lemma append_assoc s1 s2 s3 : (s1 ++ s2) ++ s3 = s1 ++ (s2 ++ s3).
Proof. induction s1; simpl; congruence. Qed.

Lemma append_nil_r s : s ++ "" = s.
Proof. induction s; simpl; congruence. Qed.

Lemma length_append s1 s2 :
  String.length (s1 ++ s2) = (String.length s1 + String.length s2)%nat.
Proof. induction s1; simpl; congruence. Qed.

Lemma len_append s1 s2 : len (s1 ++ s2) = len s1 + len s2.
Proof. unfold len. rewrite length_append. lia. Qed.

Lemma len_nonneg s : 0 <= len s.
Proof. unfold len; lia. Qed.

Lemma len_String c s : len (String c s) = len s + 1.
Proof. unfold len; simpl String.length; lia. Qed.

Lemma drop_append s1 s2 : drop (String.length s1) (s1 ++ s2) = s2.
Proof. induction s1; simpl; auto. Qed.

Lemma take_append s1 s2 : take (String.length s1) (s1 ++ s2) = s1.
Proof. induction s1; simpl; congruence. Qed.

Lemma slice_from_append s1 s2 : slice_from (s1 ++ s2) (len s1) = s2.
Proof. unfold slice_from, len. rewrite Nat2Z.id. apply drop_append. Qed.

Lemma slice_to_append s1 s2 : slice_to (s1 ++ s2) (len s1) = s1.
Proof. unfold slice_to, len. rewrite Nat2Z.id. apply take_append. Qed.

Lemma HasPrefix_spec s p :
  strings.HasPrefix s p = true <-> exists post, s = p ++ post.
Proof.
  revert s; induction p as [|c p IH]; intros s; simpl.
  - split; [intros _; now exists s | reflexivity].
  - destruct s as [|d s].
    + split; [discriminate | intros [post H]; discriminate].
    + rewrite andb_true_iff, Ascii.eqb_eq, IH. split.
      * intros [-> [post ->]]. now exists post.
      * intros [post H]. injection H as -> ->. split; [reflexivity | now exists post].
Qed.

Lemma Index_eq s sub :
  strings.Index s sub =
  if strings.HasPrefix s sub then 0
  else match s with
       | EmptyString => -1
       | String _ s' =>
           let i := strings.Index s' sub in
           if i =? -1 then -1 else i + 1
       end.
Proof. destruct s; reflexivity. Qed.

Lemma Index_range s sub : strings.Index s sub = -1 \/ 0 <= strings.Index s sub.
Proof.
  induction s as [|c s IH]; rewrite Index_eq.
  - destruct (strings.HasPrefix "" sub); lia.
  - destruct (strings.HasPrefix (String c s) sub); [lia|]. cbv zeta.
    destruct (Z.eqb_spec (strings.Index s sub) (-1)); lia.
Qed.

(** An index found by [Index] is where [sub] starts, so the slices
    taken at it are within bounds. *)
Lemma Index_found s sub :
  0 <= strings.Index s sub ->
  exists pre post,
    s = pre ++ sub ++ post /\ len pre = strings.Index s sub.
Proof.
  induction s as [|c s IH]; rewrite Index_eq.
  - destruct (strings.HasPrefix "" sub) eqn:E; [|lia].
    apply HasPrefix_spec in E as [post E]. intros _. now exists "", post.
  - destruct (strings.HasPrefix (String c s) sub) eqn:E.
    + apply HasPrefix_spec in E as [post E]. intros _. now exists "", post.
    + cbv zeta. destruct (Z.eqb_spec (strings.Index s sub) (-1)) as [|N]; [lia|].
      intros _. destruct IH as (pre & post & Hs & Hl).
      { destruct (Index_range s sub); lia. }
      exists (String c pre), post. split.
      * simpl. now rewrite <- Hs.
      * rewrite len_String. lia.
Qed.

Lemma Index_bound s sub :
  0 <= strings.Index s sub -> strings.Index s sub + len sub <= len s.
Proof.
  intros H. destruct (Index_found s sub H) as (pre & post & Hs & Hl).
  rewrite Hs at 2. rewrite !len_append, Hl. pose proof (len_nonneg post). lia.
Qed.

Lemma Index_occurs s sub : occurs sub s -> 0 <= strings.Index s sub.
Proof.
  intros (pre & post & ->). induction pre as [|c pre IH]; rewrite Index_eq.
  - assert (E : strings.HasPrefix ("" ++ sub ++ post) sub = true)
      by (apply HasPrefix_spec; now exists post).
    rewrite E. lia.
  - destruct (strings.HasPrefix _ sub); [lia|]. simpl append. cbv zeta iota.
    destruct (Z.eqb_spec (strings.Index (pre ++ sub ++ post) sub) (-1)); lia.
Qed.

Lemma Contains_spec s sub : strings.Contains s sub = true <-> occurs sub s.
Proof.
  unfold strings.Contains. rewrite Z.geb_le. split.
  - intros H. destruct (Index_found s sub H) as (pre & post & Hs & _).
    now exists pre, post.
  - apply Index_occurs.
Qed.

Lemma Index_none s sub : strings.Index s sub = -1 <-> ~ occurs sub s.
Proof.
  rewrite <- Contains_spec. unfold strings.Contains.
  destruct (Index_range s sub) as [E|E].
  - rewrite E. split; [intros _; discriminate | reflexivity].
  - split; [lia|]. intros H. exfalso. apply H. now apply Z.geb_le.
Qed.

Lemma IndexByte_range s c :
  strings.IndexByte s c = -1 \/ 0 <= strings.IndexByte s c < len s.
Proof.
  induction s as [|d s IH]; simpl; [now left|]. rewrite len_String.
  destruct (Ascii.eqb d c); [pose proof (len_nonneg s); lia|].
  destruct (Z.eqb_spec (strings.IndexByte s c) (-1)); lia.
Qed.

Lemma IndexByte_bound s c :
  strings.IndexByte s c <> -1 -> 0 <= strings.IndexByte s c < len s.
Proof. destruct (IndexByte_range s c); tauto. Qed.

Lemma Index_single s c :
  strings.Index s (String c "") = strings.IndexByte s c.
Proof.
  induction s as [|d s IH]; [reflexivity|].
  rewrite Index_eq. simpl. rewrite andb_true_r, (Ascii.eqb_sym c d).
  destruct (Ascii.eqb d c); [reflexivity|]. now rewrite IH.
Qed.

(** The first instance of [c] in [s1 ++ s2] when [s1] is free of it. *)
Lemma IndexByte_append_free s1 s2 c :
  strings.IndexByte s1 c = -1 ->
  strings.IndexByte (s1 ++ s2) c =
  if strings.IndexByte s2 c =? -1 then -1 else len s1 + strings.IndexByte s2 c.
Proof.
  induction s1 as [|d s1 IH]; cbn [append strings.IndexByte].
  - intros _. destruct (Z.eqb_spec (strings.IndexByte s2 c) (-1)); [assumption|].
    unfold len; simpl; lia.
  - destruct (Ascii.eqb d c); [discriminate|].
    destruct (Z.eqb_spec (strings.IndexByte s1 c) (-1)) as [E|E];
      [|intros H; destruct (IndexByte_range s1 c); lia].
    intros _. rewrite (IH E), len_String.
    destruct (Z.eqb_spec (strings.IndexByte s2 c) (-1)) as [E2|E2]; [reflexivity|].
    pose proof (IndexByte_bound s2 c E2). pose proof (len_nonneg s1).
    destruct (Z.eqb_spec (len s1 + strings.IndexByte s2 c) (-1)); lia.
Qed.

Lemma IndexByte_append_hit s1 s2 c :
  strings.IndexByte s1 c = -1 ->
  strings.IndexByte (s1 ++ String c s2) c = len s1.
Proof.
  intros H. rewrite (IndexByte_append_free _ _ _ H). simpl.
  rewrite Ascii.eqb_refl. simpl. lia.
Qed.

Lemma IndexByte_free_tail d s c :
  strings.IndexByte (String d s) c = -1 ->
  d <> c /\ strings.IndexByte s c = -1.
Proof.
  simpl. destruct (Ascii.eqb_spec d c); [discriminate|].
  destruct (Z.eqb_spec (strings.IndexByte s c) (-1)); [tauto|].
  destruct (IndexByte_range s c); lia.
Qed.

Lemma TrimLeft_free s c :
  strings.IndexByte s c = -1 -> strings.TrimLeft s (String c "") = s.
Proof.
  destruct s as [|d s]; [reflexivity|]. intros H.
  apply IndexByte_free_tail in H as [N _]. simpl.
  rewrite (Ascii.eqb_sym c d). destruct (Ascii.eqb_spec d c); [contradiction|reflexivity].
Qed.

Lemma TrimRight_free_then_cut s c :
  strings.IndexByte s c = -1 ->
  strings.TrimRight (s ++ String c "") (String c "") = s.
Proof.
  induction s as [|d s IH]; intros H.
  - simpl. now rewrite Ascii.eqb_refl.
  - apply IndexByte_free_tail in H as [N H]. simpl. rewrite (IH H).
    destruct s; [|reflexivity]. simpl. rewrite (Ascii.eqb_sym c d).
    destruct (Ascii.eqb_spec d c); [contradiction|reflexivity].
Qed.

(** A text free of the cut byte, between two cut bytes, is what
    [Trim] returns. *)
Lemma Trim_between s c :
  strings.IndexByte s c = -1 ->
  strings.Trim (String c (s ++ String c "")) (String c "") = s.
Proof.
  intros H. unfold strings.Trim.
  change (strings.TrimRight (String c (s ++ String c "")) (String c ""))
    with (match strings.TrimRight (s ++ String c "") (String c "") with
          | "" => if strings.IndexByte (String c "") c >=? 0 then ""
                  else String c ""
          | r => String c r
          end).
  rewrite (TrimRight_free_then_cut s c H).
  destruct s as [|d s].
  - simpl. now rewrite Ascii.eqb_refl.
  - change (strings.TrimLeft (String c (String d s)) (String c ""))
      with (if strings.IndexByte (String c "") c >=? 0
            then strings.TrimLeft (String d s) (String c "")
            else String c (String d s)).
    simpl strings.IndexByte. rewrite Ascii.eqb_refl. simpl Z.geb. cbv iota.
    now apply TrimLeft_free.
Qed.

Lemma genSplit_loop_last n s sep :
  strings.Index s sep = -1 -> strings.genSplit_loop n s sep = [s].
Proof. intros H. destruct n; simpl; [reflexivity|]. now rewrite H. Qed.

Lemma Count_loop_last fuel s sub n :
  strings.Index s sub = -1 -> strings.Count_loop fuel s sub n = n.
Proof. intros H. destruct fuel; simpl; [reflexivity|]. now rewrite H. Qed.

Lemma genSplit_loop_not_nil n s sep : strings.genSplit_loop n s sep <> [].
Proof.
  destruct n; simpl; [discriminate|].
  destruct (strings.Index s sep <? 0); discriminate.
Qed.

(** [parts[0]] exists whenever the separator is not empty. *)
Lemma Split_not_nil s sep : sep <> "" -> strings.Split s sep <> [].
Proof.
  destruct sep; [congruence|]. intros _. apply genSplit_loop_not_nil.
Qed.

Lemma Split_free s c :
  strings.IndexByte s c = -1 -> strings.Split s (String c "") = [s].
Proof.
  intros H. unfold strings.Split. apply genSplit_loop_last.
  now rewrite Index_single.
Qed.

Lemma Split_two s1 s2 c :
  strings.IndexByte s1 c = -1 -> strings.IndexByte s2 c = -1 ->
  strings.Split (s1 ++ String c s2) (String c "") = [s1; s2].
Proof.
  intros H1 H2. unfold strings.Split.
  assert (I : strings.Index (s1 ++ String c s2) (String c "") = len s1)
    by (rewrite Index_single; now apply IndexByte_append_hit).
  assert (D : slice_from (s1 ++ String c s2) (len s1 + len (String c "")) = s2).
  { replace (s1 ++ String c s2) with ((s1 ++ String c "") ++ s2)
      by (now rewrite append_assoc).
    rewrite <- len_append. apply slice_from_append. }
  assert (C : strings.Count (s1 ++ String c s2) (String c "") = 1).
  { unfold strings.Count.
    destruct (String.length (s1 ++ String c s2)) eqn:L.
    - destruct s1; discriminate.
    - simpl strings.Count_loop. rewrite I.
      pose proof (len_nonneg s1).
      destruct (Z.eqb_spec (len s1) (-1)); [lia|].
      rewrite D. apply Count_loop_last. now rewrite Index_single. }
  rewrite C. simpl strings.genSplit_loop. rewrite I.
  pose proof (len_nonneg s1). destruct (Z.ltb_spec (len s1) 0); [lia|].
  now rewrite D, slice_to_append.
Qed.

End StringFacts.

(* ================================================================= *)
(** ** Facts about [strconv.Atoi] *)

Section AtoiFacts.

Import strconv.

Lemma byte_val_range c : 0 <= byte_val c < 256.
Proof.
  unfold byte_val. pose proof (N_ascii_bounded c). lia.
Qed.

Lemma is_digit_val c : is_digit c = true -> 0 <= byte_val c - 48 <= 9.
Proof. unfold is_digit. rewrite andb_true_iff, !Z.leb_le. lia. Qed.

Lemma digit_not_sign c : is_digit c = true -> is_sign c = false.
Proof.
  intros D. unfold is_sign.
  destruct (Ascii.eqb_spec c "-"%char) as [->|_]; [discriminate D|].
  destruct (Ascii.eqb_spec c "+"%char) as [->|_]; [discriminate D|].
  reflexivity.
Qed.

Lemma digit_not_minus c : is_digit c = true -> Ascii.eqb c "-"%char = false.
Proof.
  intros D. destruct (Ascii.eqb_spec c "-"%char) as [->|_];
    [discriminate D | reflexivity].
Qed.

Lemma decimal_acc_ge s n :
  all_digits s = true -> 0 <= n -> n <= decimal_acc s n.
Proof.
  revert n; induction s as [|c s IH]; intros n; simpl; [lia|].
  rewrite andb_true_iff. intros [D A] Hn.
  pose proof (is_digit_val c D).
  specialize (IH (n * 10 + (byte_val c - 48)) A). lia.
Qed.

Lemma decimal_acc_lt s n :
  all_digits s = true -> 0 <= n ->
  decimal_acc s n < (n + 1) * 10 ^ len s.
Proof.
  revert n; induction s as [|c s IH]; intros n.
  - simpl. lia.
  - cbn [all_digits decimal_acc]. rewrite andb_true_iff. intros [D A] Hn.
    pose proof (is_digit_val c D) as Hd.
    specialize (IH (n * 10 + (byte_val c - 48)) A).
    rewrite len_String, Z.pow_add_r by (apply len_nonneg || lia).
    change (10 ^ 1) with 10.
    assert (0 < 10 ^ len s) by (apply Z.pow_pos_nonneg; [lia | apply len_nonneg]).
    nia.
Qed.

Lemma Atoi_fast_loop_digits s n :
  all_digits s = true -> Atoi_fast_loop s n = (decimal_acc s n, None).
Proof.
  revert n; induction s as [|c s IH]; intros n; simpl; [reflexivity|].
  rewrite andb_true_iff. intros [D A].
  pose proof (is_digit_val c D) as Hd.
  rewrite Z.mod_small by lia.
  destruct (Z.gtb_spec (byte_val c - 48) 9); [lia|]. now apply IH.
Qed.

Lemma cutoff64 : maxUint64 / 10 + 1 = 1844674407370955162.
Proof. reflexivity. Qed.

(** On digits the loop of [ParseUint] returns the value, or reports
    that it exceeds 64 bits. *)
Lemma ParseUint_loop_digits s n :
  all_digits s = true -> 0 <= n <= maxUint64 ->
  ParseUint_loop (maxUint64 / 10 + 1) (2 ^ 64 - 1) s n =
  if decimal_acc s n <=? maxUint64 then (decimal_acc s n, None)
  else (maxUint64, Some ErrRange).
Proof.
  rewrite cutoff64. change maxUint64 with 18446744073709551615.
  change (2 ^ 64 - 1) with 18446744073709551615.
  revert n; induction s as [|c s IH]; intros n A Hn.
  - simpl. destruct (Z.leb_spec n 18446744073709551615); [reflexivity | lia].
  - cbn [all_digits] in A. apply andb_true_iff in A as [D A].
    pose proof (is_digit_val c D) as Hd.
    cbn [ParseUint_loop decimal_acc]. fold (is_digit c). rewrite D.
    change (2 ^ 64) with 18446744073709551616.
    pose proof (decimal_acc_ge s (n * 10 + (byte_val c - 48)) A) as G.
    destruct (Z.geb_spec n 1844674407370955162) as [C|C].
    + destruct (Z.leb_spec (decimal_acc s (n * 10 + (byte_val c - 48)))
                  18446744073709551615); [lia | reflexivity].
    + rewrite (Z.mod_small (n * 10)) by lia.
      destruct (Z_lt_le_dec (n * 10 + (byte_val c - 48)) 18446744073709551616)
        as [S|B].
      * rewrite Z.mod_small by lia.
        destruct (Z.ltb_spec (n * 10 + (byte_val c - 48)) (n * 10)); [lia|].
        destruct (Z.gtb_spec (n * 10 + (byte_val c - 48)) 18446744073709551615);
          [lia|].
        cbn [orb]. apply IH; [assumption | lia].
      * replace ((n * 10 + (byte_val c - 48)) mod 18446744073709551616)
          with (n * 10 + (byte_val c - 48) - 18446744073709551616).
        2:{ apply Z.mod_unique_pos with (q := 1); lia. }
        destruct (Z.ltb_spec (n * 10 + (byte_val c - 48) - 18446744073709551616)
                    (n * 10)); [|lia].
        cbn [orb].
        destruct (Z.leb_spec (decimal_acc s (n * 10 + (byte_val c - 48)))
                    18446744073709551615); [lia | reflexivity].
Qed.

(** [Atoi] on a numeral: its value, saturated at the largest [int]. *)
Lemma Atoi_numeral s :
  numeral s ->
  Atoi s = if decimal_value s <=? maxInt then (decimal_value s, None)
           else (maxInt, Some ErrRange).
Proof.
  intros [N A]. destruct s as [|c s]; [congruence|clear N].
  pose proof A as A'. cbn [all_digits] in A'. apply andb_true_iff in A' as [D _].
  unfold Atoi. rewrite (digit_not_sign c D), (digit_not_minus c D).
  pose proof (decimal_acc_lt _ 0 A ltac:(lia)) as L. fold (decimal_value (String c s)) in L.
  pose proof (decimal_acc_ge _ 0 A ltac:(lia)) as G. fold (decimal_value (String c s)) in G.
  pose proof (len_nonneg s) as P. rewrite len_String in *.
  change maxInt with 9223372036854775807.
  destruct (Z.ltb_spec 0 (len s + 1)); [|lia].
  destruct (Z.ltb_spec (len s + 1) 19) as [Short|Long]; cbn [andb].
  - destruct (Z.ltb_spec (len s + 1) 1); [lia|].
    rewrite (Atoi_fast_loop_digits _ 0 A). fold (decimal_value (String c s)).
    assert (10 ^ (len s + 1) <= 10 ^ 18) by (apply Z.pow_le_mono_r; lia).
    destruct (Z.leb_spec (decimal_value (String c s)) 9223372036854775807);
      [reflexivity | lia].
  - unfold ParseInt. rewrite (digit_not_sign c D), (digit_not_minus c D).
    unfold ParseUint.
    rewrite (ParseUint_loop_digits _ 0 A) by (unfold maxUint64; lia).
    fold (decimal_value (String c s)).
    change maxUint64 with 18446744073709551615.
    change (2 ^ (intSize - 1)) with 9223372036854775808. cbn [negb andb].
    destruct (Z.leb_spec (decimal_value (String c s)) 18446744073709551615).
    + destruct (Z.geb_spec (decimal_value (String c s)) 9223372036854775808);
        destruct (Z.leb_spec (decimal_value (String c s)) 9223372036854775807);
        try lia; reflexivity.
    + destruct (Z.leb_spec (decimal_value (String c s)) 9223372036854775807);
        [lia | reflexivity].
Qed.

Lemma Atoi_numeral_value s :
  numeral s -> fst (Atoi s) = Z.min (decimal_value s) maxInt.
Proof.
  intros H. rewrite (Atoi_numeral s H).
  destruct (Z.leb_spec (decimal_value s) maxInt); simpl; lia.
Qed.

(** A text that does not start with a digit or a sign is a syntax
    error, whatever follows. *)
Lemma Atoi_syntax_first c s :
  is_digit c = false -> is_sign c = false ->
  Atoi (String c s) = (0, Some ErrSyntax).
Proof.
  intros D S. unfold Atoi, ParseInt, ParseUint. rewrite S.
  assert (F : Atoi_fast_loop (String c s) 0 = (0, Some ErrSyntax)).
  { cbn [Atoi_fast_loop]. unfold is_digit in D. pose proof (byte_val_range c).
    destruct (Z_lt_le_dec (byte_val c) 48).
    - replace ((byte_val c - 48) mod 256) with (byte_val c - 48 + 256)
        by (apply Z.mod_unique_pos with (q := -1); lia).
      destruct (Z.gtb_spec (byte_val c - 48 + 256) 9); [reflexivity | lia].
    - rewrite Z.mod_small by lia.
      destruct (Z.gtb_spec (byte_val c - 48) 9); [reflexivity|].
      apply andb_false_iff in D as [D|D]; apply Z.leb_gt in D; lia. }
  assert (U : ParseUint_loop (maxUint64 / 10 + 1) (2 ^ 64 - 1) (String c s) 0
              = (0, Some ErrSyntax)).
  { cbn [ParseUint_loop]. fold (is_digit c). now rewrite D. }
  rewrite F, U.
  destruct ((0 <? len (String c s)) && (len (String c s) <? 19)); [|reflexivity].
  destruct (len (String c s) <? 1); reflexivity.
Qed.

Lemma Atoi_empty : Atoi "" = (0, Some ErrSyntax).
Proof. reflexivity. Qed.

(** The value [Atoi] returns with an error: [0] with a syntax error,
    a bound of [int] with a range error. *)
Lemma ParseInt_error_value s :
  match snd (ParseInt s) with
  | Some ErrSyntax => fst (ParseInt s) = 0
  | Some ErrRange => fst (ParseInt s) = maxInt \/ fst (ParseInt s) = minInt
  | None => True
  end.
Proof.
  unfold ParseInt. destruct s as [|c s]; [reflexivity|].
  destruct (ParseUint (if is_sign c then s else String c s)) as [un [[]|]];
    [reflexivity| |];
    destruct (negb (Ascii.eqb c "-") && (un >=? 2 ^ (intSize - 1)));
    try (left; reflexivity);
    destruct (Ascii.eqb c "-" && (un >? 2 ^ (intSize - 1)));
    try (right; reflexivity); exact I.
Qed.

Lemma Atoi_error_value s :
  match snd (Atoi s) with
  | Some ErrSyntax => fst (Atoi s) = 0
  | Some ErrRange => fst (Atoi s) = maxInt \/ fst (Atoi s) = minInt
  | None => True
  end.
Proof.
  unfold Atoi.
  destruct ((0 <? len s) && (len s <? 19)); [|apply ParseInt_error_value].
  destruct s as [|c s]; [reflexivity|].
  destruct (len (if is_sign c then s else String c s) <? 1); [reflexivity|].
  assert (L : forall t n, match snd (Atoi_fast_loop t n) with
                          | Some ErrSyntax => True
                          | Some ErrRange => False
                          | None => True
                          end).
  { induction t as [|d t IH]; intros n; simpl; [exact I|].
    destruct ((byte_val d - 48) mod 256 >? 9); [exact I | apply IH]. }
  specialize (L (if is_sign c then s else String c s) 0).
  destruct (Atoi_fast_loop (if is_sign c then s else String c s) 0)
    as [n [[]|]]; simpl in *; tauto.
Qed.

End AtoiFacts.

(* ================================================================= *)
(** ** The checks, one by one *)

Section CheckFacts.

Variable h : Host.

Lemma rootCheck_eq :
  rootCheck h =
  if euid h =? 0
  then (None, [Geteuid_call; Log DebugLevel "✅ Current user is root." []])
  else (Some msg_not_root,
        [Geteuid_call; Log ErrorLevel "❌ Current user is not root." [];
         Log DebugLevel "Effective User ID" [zap_Int "euid" (euid h)]]).
Proof.
  unfold rootCheck. run_check. destruct (euid h =? 0); reflexivity.
Qed.

Lemma validateOS_unreadable e :
  ReadFile_result h "/etc/os-release" = inr e ->
  validateOS h =
  (Some e, [Log DebugLevel "Validating operating system..." [];
            ReadFile_call "/etc/os-release"]).
Proof. intros R. unfold validateOS. run_check. now rewrite R. Qed.

(** [validateOS] on a readable release file, stage by stage. *)
Lemma validateOS_readable data :
  ReadFile_result h "/etc/os-release" = inl data ->
  result_of validateOS h =
  if negb (isRHEL data) then Some msg_unsupported_os
  else match versionField data with
       | None => Some msg_no_version
       | Some version =>
           let major := fst (parseVersion version) in
           let minor := snd (parseVersion version) in
           if (major <? 9) || ((major =? 9) && (minor <? 6))
           then Some (msg_unsupported_version version)
           else None
       end.
Proof.
  intros R. unfold validateOS. run_check. rewrite R.
  unfold isRHEL, versionField, parseVersion, marker_name, marker_id_quoted,
    marker_id_plain.
  destruct (negb _); [reflexivity|].
  destruct (strings.Index data "VERSION_ID=" =? -1); [reflexivity|].
  cbv zeta. cbn [fst snd].
  destruct (_ || _); reflexivity.
Qed.

Lemma validateOS_trace :
  exists t, trace_of validateOS h =
            Log DebugLevel "Validating operating system..." []
            :: ReadFile_call "/etc/os-release" :: t.
Proof.
  unfold validateOS. run_check.
  destruct (ReadFile_result h "/etc/os-release") as [data|e]; [|now eexists].
  destruct (negb _); [now eexists|].
  destruct (strings.Index data "VERSION_ID=" =? -1); [now eexists|].
  cbv zeta. destruct (_ || _); now eexists.
Qed.

(** The slices and the index of [validateOS] are within bounds, so the
    Go code does not panic where the model is total. *)
Lemma validateOS_in_bounds (osInfo : string) :
  let idx := strings.Index osInfo "VERSION_ID=" in
  idx <> -1 ->
  0 <= idx + len "VERSION_ID=" <= len osInfo
  /\ (let rest := slice_from osInfo (idx + len "VERSION_ID=") in
      let end_ := strings.IndexByte rest newline_byte in
      end_ <> -1 -> 0 <= end_ <= len rest)
  /\ (forall version, strings.Split version "." <> []).
Proof.
  intros idx N.
  assert (P : 0 <= idx) by (destruct (Index_range osInfo "VERSION_ID="); tauto).
  pose proof (Index_bound osInfo "VERSION_ID=" P) as B. fold idx in B.
  split; [change (len "VERSION_ID=") with 11 in *; lia|]. split.
  - intros rest end_ E.
    pose proof (IndexByte_bound rest newline_byte E) as B2. fold end_ in B2. lia.
  - intros version. now apply Split_not_nil.
Qed.

Lemma validatePowerVersion_eq :
  validatePowerVersion h =
  if negb (String.eqb (GOARCH h) "ppc64le")
  then (Some (msg_unsupported_arch (GOARCH h)),
        [Log DebugLevel "Validating IBM Power version..." []])
  else
    match ReadFile_result h "/proc/cpuinfo" with
    | inl data =>
        if strings.Contains data "POWER11"
        then (None,
              [Log DebugLevel "Validating IBM Power version..." [];
               ReadFile_call "/proc/cpuinfo";
               Log DebugLevel
                 "✅ System is running on IBM POWER11 architecture" []])
        else (Some msg_unsupported_power,
              [Log DebugLevel "Validating IBM Power version..." [];
               ReadFile_call "/proc/cpuinfo"])
    | inr _ =>
        (Some msg_unsupported_power,
         [Log DebugLevel "Validating IBM Power version..." [];
          ReadFile_call "/proc/cpuinfo"])
    end.
Proof.
  unfold validatePowerVersion. run_check.
  destruct (negb _); [reflexivity|].
  destruct (ReadFile_result h "/proc/cpuinfo") as [data|e]; [|reflexivity].
  destruct (strings.Contains data "POWER11"); reflexivity.
Qed.

Lemma validatePowerVersion_trace :
  exists t, trace_of validatePowerVersion h =
            Log DebugLevel "Validating IBM Power version..." [] :: t.
Proof.
  unfold trace_of. rewrite validatePowerVersion_eq.
  destruct (negb _); [now eexists|].
  destruct (ReadFile_result h "/proc/cpuinfo") as [data|e]; [|now eexists].
  destruct (strings.Contains data "POWER11"); now eexists.
Qed.

Lemma report_loop_trace errs : forall i,
  report_loop (Z.of_nat i) errs h =
  (tt, map (fun m => Log ErrorLevel m []) (numbered_from (S i) errs)).
Proof.
  induction errs as [|e errs IH]; intros i; [reflexivity|].
  cbn [report_loop]. unfold bind.
  replace (Z.of_nat i + 1) with (Z.of_nat (S i)) by lia.
  rewrite IH. reflexivity.
Qed.

(** A run that passes the privilege check: the aggregate of the
    failures, and the trace of all six checks followed by the report. *)
Lemma RunE_root :
  euid h = 0 -> RunE h = (aggregate (failures h), full_trace h).
Proof.
  intros E. unfold RunE. unfold bind at 1 2. rewrite rootCheck_eq, E.
  cbn [Z.eqb logger_Info emit].
  unfold full_trace, failures, podman_trace, root_passed, result_of, trace_of.
  unfold bind, validators_Podman, validateRHNRegistration, validateLTCRPMRepo,
    validateRHAIISLicense, logger_Debug, logger_Info, logger_Error, emit, ret, bind.
  destruct (validateOS h) as [[e1|] t1];
    destruct (Podman_result h) as [pe|];
    destruct (validatePowerVersion h) as [[e2|] t2];
    cbn [append_if_err app List.length Z.of_nat Z.gtb Z.compare fst snd
         opt_list option_map aggregate];
    rewrite ?(report_loop_trace _ 0);
    cbn [report fst snd app];
    rewrite <- ?app_assoc, ?app_nil_r; reflexivity.
Qed.

Lemma RunE_not_root :
  euid h <> 0 -> RunE h = (Some msg_not_root, root_failed h).
Proof.
  intros E. unfold RunE. unfold bind at 1 2. rewrite rootCheck_eq.
  destruct (Z.eqb_spec (euid h) 0); [contradiction | reflexivity].
Qed.

End CheckFacts.

(* ================================================================= *)
(** ** A release file with a given version *)

Section ReleaseFile.

Variable v : string.
Hypothesis v_one_line : strings.IndexByte v newline_byte = -1.
Hypothesis v_unquoted : strings.IndexByte v dquote_byte = -1.

Lemma os_release_isRHEL : isRHEL (os_release v) = true.
Proof. vm_compute. reflexivity. Qed.

Lemma os_release_versionField : versionField (os_release v) = Some v.
Proof.
  unfold versionField.
  set (tail := "ID=" ++ dquote ++ "rhel" ++ dquote ++ newline).
  assert (I : strings.Index (os_release v) "VERSION_ID=" = 32)
    by (vm_compute; reflexivity).
  rewrite I.
  assert (R : slice_from (os_release v) (32 + len "VERSION_ID=")
              = String dquote_byte (v ++ String dquote_byte (String newline_byte tail)))
    by reflexivity.
  rewrite R. clear I R.
  assert (E : strings.IndexByte
                (String dquote_byte (v ++ String dquote_byte (String newline_byte tail)))
                newline_byte = len v + 2).
  { cbn [strings.IndexByte].
    change (Ascii.eqb dquote_byte newline_byte) with false. cbv iota.
    rewrite (IndexByte_append_free _ _ _ v_one_line).
    cbn [strings.IndexByte].
    change (Ascii.eqb dquote_byte newline_byte) with false.
    rewrite Ascii.eqb_refl. cbv iota zeta. cbn [Z.eqb Z.add].
    pose proof (len_nonneg v).
    destruct (Z.eqb_spec (len v + 1) (-1)); lia. }
  rewrite E. pose proof (len_nonneg v).
  destruct (Z.eqb_spec (len v + 2) (-1)); [lia|]. cbn [negb].
  assert (T : slice_to
                (String dquote_byte (v ++ String dquote_byte (String newline_byte tail)))
                (len v + 2)
              = String dquote_byte (v ++ String dquote_byte "")).
  { unfold slice_to.
    replace (Z.to_nat (len v + 2)) with (S (String.length (v ++ String dquote_byte "")))
      by (rewrite length_append; unfold len; simpl String.length; lia).
    cbn [take]. f_equal.
    replace (v ++ String dquote_byte (String newline_byte tail))
      with ((v ++ String dquote_byte "") ++ String newline_byte tail)
      by (now rewrite append_assoc).
    apply take_append. }
  rewrite T. cbn [Z.eqb]. f_equal. apply (Trim_between v dquote_byte v_unquoted).
Qed.

End ReleaseFile.

Lemma numeral_free s c :
  all_digits s = true -> is_digit c = false -> strings.IndexByte s c = -1.
Proof.
  intros A N. induction s as [|d s IH]; [reflexivity|].
  cbn [all_digits] in A. apply andb_true_iff in A as [D A]. simpl.
  destruct (Ascii.eqb_spec d c) as [->|_]; [congruence|]. now rewrite (IH A).
Qed.

(* ================================================================= *)
(** ** Traces and reports *)

Lemma subsequence_app_skip {A} (t l1 l2 : list A) :
  subsequence l1 l2 -> subsequence l1 (t ++ l2)%list.
Proof. intros H. induction t; simpl; [assumption | now apply subseq_skip]. Qed.

Lemma subsequence_In {A} (l1 l2 : list A) :
  subsequence l1 l2 -> forall x, In x l1 -> In x l2.
Proof.
  induction 1 as [l | x l1 l2 _ IH | x l1 l2 _ IH]; intros y Hy.
  - destruct Hy.
  - destruct Hy as [->|Hy]; [now left | right; now apply IH].
  - right. now apply IH.
Qed.

(** The [k]-th failure is reported on the line numbered [k + 1]. *)
Lemma numbered_from_nth (errs : list error) : forall (i k : nat) (e : error),
  nth_error errs k = Some e ->
  nth_error (numbered_from i errs) k
  = Some ("  " ++ fmt_d (Z.of_nat (i + k)) ++ ". " ++ e).
Proof.
  unfold numbered_from.
  induction errs as [|x errs IH]; intros i k e; destruct k;
    cbn [nth_error List.length seq combine map fst snd]; try discriminate.
  - intros [= ->]. now rewrite Nat.add_0_r.
  - intros H. rewrite (IH (S i) k e H).
    now rewrite Nat.add_succ_r.
Qed.

Lemma numbered_from_length (errs : list error) (i : nat) :
  List.length (numbered_from i errs) = List.length errs.
Proof.
  unfold numbered_from.
  now rewrite length_map, length_combine, length_seq, Nat.min_id.
Qed.

Lemma report_lines (errs : list error) (k : nat) (e : error) :
  nth_error errs k = Some e ->
  In (Log ErrorLevel ("  " ++ fmt_d (Z.of_nat k + 1) ++ ". " ++ e) [])
     (report errs).
Proof.
  intros H. destruct errs as [|x errs]; [destruct k; discriminate|].
  unfold report. right. apply in_map_iff.
  exists ("  " ++ fmt_d (Z.of_nat k + 1) ++ ". " ++ e). split; [reflexivity|].
  apply nth_error_In with (n := k).
  rewrite (numbered_from_nth _ 1 k e H).
  now replace (Z.of_nat (1 + k)) with (Z.of_nat k + 1) by lia.
Qed.

Lemma RunE_markers (h : Host) :
  euid h = 0 -> subsequence check_markers (trace_of RunE h).
Proof.
  intros E. unfold trace_of at 1. rewrite (RunE_root h E). cbn [snd].
  unfold full_trace.
  destruct (validateOS_trace h) as [t1 ->].
  destruct (validatePowerVersion_trace h) as [t2 ->].
  unfold check_markers, root_passed, podman_trace.
  cbv [trace_of validateRHNRegistration validateLTCRPMRepo validateRHAIISLicense
       bind ret logger_Debug emit snd].
  cbn [app].
  repeat first [ apply subseq_nil | apply subseq_take | apply subseq_skip
               | apply subsequence_app_skip ].
Qed.

Lemma RunE_report (h : Host) :
  euid h = 0 ->
  exists checks, trace_of RunE h = (checks ++ report (failures h))%list.
Proof.
  intros E. unfold trace_of at 1. rewrite (RunE_root h E). cbn [snd].
  unfold full_trace. rewrite !app_assoc. now eexists.
Qed.

Lemma failures_nil (h : Host) :
  failures h = [] <->
  result_of validateOS h = None /\ Podman_result h = None
  /\ result_of validatePowerVersion h = None.
Proof.
  unfold failures.
  destruct (result_of validateOS h), (Podman_result h),
    (result_of validatePowerVersion h); simpl;
    split; try discriminate; try tauto;
    intros (A & B & C); discriminate.
Qed.

(* ================================================================= *)
(** ** The run as a whole *)

(** C7.  The registration check, the package-repository check and the
    license check return no error on every host: each only writes its
    debug line. *)
Theorem placeholder_checks_always_pass (h : Host) :
  validateRHNRegistration h
  = (None, [Log DebugLevel "Validating RHN registration..." []])
  /\ validateLTCRPMRepo h
     = (None, [Log DebugLevel "Validating LTC RPM repository..." []])
  /\ validateRHAIISLicense h
     = (None, [Log DebugLevel "Validating RHAIIS license..." []]).
Proof. repeat split. Qed.

(** C2.  When the effective user id is not 0 the run returns the
    privilege error at once: its trace is the opening line, the call of
    [Geteuid] and the two lines of the privilege check, so no later
    check starts, no file is read and the Podman validator is not
    called.  When the effective user id is 0 the privilege check
    returns no error and all six later checks start, in their order. *)
Theorem privilege_check_short_circuits (h : Host) :
  (euid h <> 0 ->
   RunE h = (Some msg_not_root, root_failed h)
   /\ (forall m, In m check_markers -> ~ In m (trace_of RunE h))
   /\ (forall name, ~ In (ReadFile_call name) (trace_of RunE h)))
  /\ (euid h = 0 ->
      result_of rootCheck h = None
      /\ subsequence check_markers (trace_of RunE h)).
Proof.
  split.
  - intros N. pose proof (RunE_not_root h N) as R. split; [exact R|].
    unfold trace_of. rewrite R. cbn [snd]. split.
    + intros m Hm Ht. unfold check_markers, root_failed in *. simpl in Hm, Ht.
      split_cases; subst; discriminate.
    + intros name Ht. unfold root_failed in Ht. simpl in Ht.
      split_cases; discriminate.
  - intros E. split; [|now apply RunE_markers].
    unfold result_of. rewrite rootCheck_eq, E. reflexivity.
Qed.

Lemma privilege_check_short_circuits_witness :
  (euid host_not_root <> 0 /\
   RunE host_not_root = (Some msg_not_root, root_failed host_not_root))
  /\ (euid host_ok = 0 /\ result_of rootCheck host_ok = None).
Proof.
  split.
  - assert (N : euid host_not_root <> 0) by (vm_compute; discriminate).
    split; [exact N|].
    exact (proj1 (proj1 (privilege_check_short_circuits host_not_root) N)).
  - split; [reflexivity|].
    exact (proj1 (proj2 (privilege_check_short_circuits host_ok) eq_refl)).
Defined.

(** C1.  In a run that passes the privilege check all six later checks
    run, whatever the earlier ones returned; the failures are collected
    in the order of the checks; the run ends with the report, in which
    the failure at position [k] (from 0) is on the line numbered
    [k + 1].  With the version 9.0, a failing Podman validator, the
    architecture ppc64le and a POWER11 in the CPU-info file there are
    exactly two failures, the version first and the runtime second, and
    the run returns an error. *)
Theorem run_collects_every_failure (h : Host) (Hroot : euid h = 0) :
  RunE h = (aggregate (failures h), full_trace h)
  /\ subsequence check_markers (trace_of RunE h)
  /\ (forall k e,
        nth_error (failures h) k = Some e ->
        In (Log ErrorLevel ("  " ++ fmt_d (Z.of_nat k + 1) ++ ". " ++ e) [])
           (trace_of RunE h))
  /\ (forall data cpu pe,
        ReadFile_result h "/etc/os-release" = inl data ->
        isRHEL data = true ->
        versionField data = Some "9.0" ->
        Podman_result h = Some pe ->
        GOARCH h = "ppc64le" ->
        ReadFile_result h "/proc/cpuinfo" = inl cpu ->
        occurs "POWER11" cpu ->
        failures h = [msg_unsupported_version "9.0"; msg_podman pe]
        /\ result_of RunE h = Some "2 validation check(s) failed").
Proof.
  pose proof (RunE_root h Hroot) as R.
  split; [exact R|]. split; [now apply RunE_markers|]. split.
  - intros k e Hk. destruct (RunE_report h Hroot) as [checks ->].
    apply in_or_app. right. now apply report_lines.
  - intros data cpu pe Hrel Hrhel Hver Hpod Harch Hcpu Hpower.
    assert (F : failures h = [msg_unsupported_version "9.0"; msg_podman pe]).
    { unfold failures. rewrite (validateOS_readable h data Hrel), Hrhel, Hver, Hpod.
      unfold result_of at 3. rewrite validatePowerVersion_eq, Harch, Hcpu.
      apply Contains_spec in Hpower. rewrite Hpower. reflexivity. }
    split; [exact F|]. unfold result_of. rewrite R, F. reflexivity.
Qed.

Lemma run_collects_every_failure_witness :
  euid host_mixed = 0 /\
  failures host_mixed
  = [msg_unsupported_version "9.0"; msg_podman podman_missing]
  /\ result_of RunE host_mixed = Some "2 validation check(s) failed".
Proof.
  split; [reflexivity|].
  apply (proj2 (proj2 (proj2 (run_collects_every_failure host_mixed eq_refl)))
           (os_release "9.0") cpuinfo_power11 podman_missing);
    try reflexivity.
  apply Contains_spec. vm_compute. reflexivity.
Defined.

(** Two hosts with one failure each, a different one, get the same
    error from the run: the error returned does not determine the
    failure messages. *)
Lemma aggregate_error_forgets_messages :
  euid host_old_release = 0 /\ euid host_no_podman = 0
  /\ failures host_old_release = [msg_unsupported_version "9.0"]
  /\ failures host_no_podman = [msg_podman podman_missing]
  /\ result_of RunE host_old_release = Some "1 validation check(s) failed"
  /\ result_of RunE host_no_podman = Some "1 validation check(s) failed"
  /\ ~ (exists carried : option error -> list error,
          forall h, euid h = 0 -> carried (result_of RunE h) = failures h).
Proof.
  assert (F1 : failures host_old_release = [msg_unsupported_version "9.0"])
    by (vm_compute; reflexivity).
  assert (F2 : failures host_no_podman = [msg_podman podman_missing])
    by (vm_compute; reflexivity).
  assert (R1 : result_of RunE host_old_release
               = Some "1 validation check(s) failed") by (vm_compute; reflexivity).
  assert (R2 : result_of RunE host_no_podman
               = Some "1 validation check(s) failed") by (vm_compute; reflexivity).
  repeat (split; [reflexivity || assumption|]).
  intros [carried H].
  pose proof (H host_old_release eq_refl) as H1.
  pose proof (H host_no_podman eq_refl) as H2.
  rewrite R1, F1 in H1. rewrite R2, F2 in H2. rewrite H1 in H2.
  vm_compute in H2. discriminate H2.
Qed.

(** C4, as the code has it.  In a run that passes the privilege check
    with at least one failure, the error returned carries the number of
    failures and nothing else; the failure messages go to the error log,
    one numbered line each, in the order of the checks, before the run
    returns.  When no check fails the run returns no error. *)
Theorem aggregate_error_carries_count (h : Host) (Hroot : euid h = 0) :
  (failures h <> [] ->
   result_of RunE h
   = Some (fmt_d (Z.of_nat (List.length (failures h)))
           ++ " validation check(s) failed")
   /\ exists checks,
       trace_of RunE h
       = (checks
          ++ Log ErrorLevel "❌ Validation failed with errors:" []
             :: map (fun m => Log ErrorLevel m [])
                    (numbered_from 1 (failures h)))%list)
  /\ (failures h = [] -> result_of RunE h = None)
  /\ (failures h = [] <->
      result_of validateOS h = None
      /\ result_of validateRHNRegistration h = None
      /\ result_of validateLTCRPMRepo h = None
      /\ Podman_result h = None
      /\ result_of validatePowerVersion h = None
      /\ result_of validateRHAIISLicense h = None).
Proof.
  pose proof (RunE_root h Hroot) as R. split; [|split].
  - intros N. split.
    + unfold result_of. rewrite R. cbn [fst].
      destruct (failures h); [congruence | reflexivity].
    + destruct (RunE_report h Hroot) as [checks ->]. exists checks.
      destruct (failures h); [congruence | reflexivity].
  - intros E. unfold result_of. rewrite R, E. reflexivity.
  - rewrite failures_nil. split.
    + intros (A & B & C). repeat split; assumption.
    + intros (A & _ & _ & B & C & _). repeat split; assumption.
Qed.

Lemma aggregate_error_carries_count_witness :
  euid host_mixed = 0 /\ failures host_mixed <> []
  /\ result_of RunE host_mixed
     = Some (fmt_d (Z.of_nat (List.length (failures host_mixed)))
             ++ " validation check(s) failed").
Proof.
  assert (N : failures host_mixed <> []) by (vm_compute; discriminate).
  split; [reflexivity|]. split; [exact N|].
  exact (proj1 (proj1 (aggregate_error_carries_count host_mixed eq_refl) N)).
Defined.

(* ================================================================= *)
(** ** The distribution and version check *)

Lemma msg_version_not_os v : msg_unsupported_version v <> msg_unsupported_os.
Proof. unfold msg_unsupported_version, msg_unsupported_os. simpl. discriminate. Qed.

Lemma msg_version_not_absent v : msg_unsupported_version v <> msg_no_version.
Proof. unfold msg_unsupported_version, msg_no_version. simpl. discriminate. Qed.

Lemma msg_absent_not_os : msg_no_version <> msg_unsupported_os.
Proof. discriminate. Qed.

Lemma isRHEL_spec data :
  isRHEL data = true <->
  occurs marker_name data \/ occurs marker_id_quoted data
  \/ occurs marker_id_plain data.
Proof. unfold isRHEL. rewrite !orb_true_iff, !Contains_spec. tauto. Qed.

Lemma validateOS_unsupported_os h data :
  ReadFile_result h "/etc/os-release" = inl data ->
  (result_of validateOS h = Some msg_unsupported_os <-> isRHEL data = false).
Proof.
  intros Hrel. rewrite (validateOS_readable h data Hrel).
  destruct (isRHEL data); cbn [negb]; [|tauto].
  split; [|discriminate]. cbv zeta.
  destruct (versionField data) as [v|]; [|discriminate].
  destruct (_ || _); [|discriminate].
  intros E. exfalso. apply (msg_version_not_os v). congruence.
Qed.

Lemma validateOS_versioned h data version :
  ReadFile_result h "/etc/os-release" = inl data ->
  isRHEL data = true -> versionField data = Some version ->
  result_of validateOS h =
  if (fst (parseVersion version) <? 9)
     || ((fst (parseVersion version) =? 9) && (snd (parseVersion version) <? 6))
  then Some (msg_unsupported_version version) else None.
Proof.
  intros Hrel Hrhel Hver.
  now rewrite (validateOS_readable h data Hrel), Hrhel, Hver.
Qed.

Lemma validateOS_passes_iff h data version :
  ReadFile_result h "/etc/os-release" = inl data ->
  isRHEL data = true -> versionField data = Some version ->
  (result_of validateOS h = None <->
   meetsMinimum (fst (parseVersion version)) (snd (parseVersion version))).
Proof.
  intros Hrel Hrhel Hver.
  rewrite (validateOS_versioned h data version Hrel Hrhel Hver).
  unfold meetsMinimum.
  destruct (Z.ltb_spec (fst (parseVersion version)) 9);
    destruct (Z.eqb_spec (fst (parseVersion version)) 9);
    destruct (Z.ltb_spec (snd (parseVersion version)) 6);
    cbn [orb andb]; split; intros; try discriminate; try reflexivity; lia.
Qed.

Lemma dot_not_digit : is_digit "."%char = false.
Proof. reflexivity. Qed.

Lemma parseVersion_two a b :
  numeral a -> numeral b ->
  parseVersion (a ++ "." ++ b)
  = (Z.min (decimal_value a) strconv.maxInt,
     Z.min (decimal_value b) strconv.maxInt).
Proof.
  intros Ha Hb. unfold parseVersion.
  change (a ++ "." ++ b) with (a ++ String "."%char b).
  rewrite (Split_two a b "."%char)
    by (apply numeral_free; [apply Ha || apply Hb | apply dot_not_digit]).
  cbn [index0 index1 nth List.length Z.of_nat].
  now rewrite (Atoi_numeral_value a Ha), (Atoi_numeral_value b Hb).
Qed.

Lemma parseVersion_one a :
  numeral a ->
  parseVersion a = (Z.min (decimal_value a) strconv.maxInt, 0).
Proof.
  intros Ha. unfold parseVersion.
  rewrite (Split_free a "."%char)
    by (apply numeral_free; [apply Ha | apply dot_not_digit]).
  cbn [index0 index1 nth List.length Z.of_nat].
  now rewrite (Atoi_numeral_value a Ha).
Qed.

Lemma meetsMinimum_saturated va vb :
  meetsMinimum (Z.min va strconv.maxInt) (Z.min vb strconv.maxInt)
  <-> meetsMinimum va vb.
Proof.
  unfold meetsMinimum. change strconv.maxInt with 9223372036854775807. lia.
Qed.

Lemma version_clean a b c :
  numeral a -> numeral b -> is_digit c = false -> c <> "."%char ->
  strings.IndexByte (a ++ "." ++ b) c = -1.
Proof.
  intros [_ Ha] [_ Hb] D N.
  rewrite (IndexByte_append_free a _ c (numeral_free a c Ha D)).
  change ("." ++ b) with (String "."%char b). cbn [strings.IndexByte].
  destruct (Ascii.eqb_spec "."%char c) as [E|_]; [now subst|].
  now rewrite (numeral_free b c Hb D).
Qed.

(** C3.  On a readable release file of the supported distribution with
    a version field, the check passes exactly when the parsed version
    has major > 9, or major = 9 and minor >= 6, the minor being 0 when
    the version has one component.  For a version written as two
    decimal numerals (or one) these are the values of the numerals, so
    the comparison is by value; 9.6, 10.0 and 9.10 pass, 9.5 and 9
    fail. *)
Theorem validateOS_version_rule :
  (forall h data version,
      ReadFile_result h "/etc/os-release" = inl data ->
      isRHEL data = true ->
      versionField data = Some version ->
      (result_of validateOS h = None <->
       meetsMinimum (fst (parseVersion version)) (snd (parseVersion version)))
      /\ (forall a b,
             numeral a -> numeral b -> version = a ++ "." ++ b ->
             parseVersion version
             = (Z.min (decimal_value a) strconv.maxInt,
                Z.min (decimal_value b) strconv.maxInt)
             /\ (result_of validateOS h = None <->
                 meetsMinimum (decimal_value a) (decimal_value b)))
      /\ (forall a,
             numeral a -> version = a ->
             parseVersion version = (Z.min (decimal_value a) strconv.maxInt, 0)
             /\ (result_of validateOS h = None <->
                 meetsMinimum (decimal_value a) 0)))
  /\ (forall h a b,
         numeral a -> numeral b ->
         ReadFile_result h "/etc/os-release" = inl (os_release (a ++ "." ++ b)) ->
         (result_of validateOS h = None <->
          meetsMinimum (decimal_value a) (decimal_value b)))
  /\ (forall h v,
         ReadFile_result h "/etc/os-release" = inl (os_release v) ->
         (v = "9.6" \/ v = "10.0" \/ v = "9.10" ->
          result_of validateOS h = None)
         /\ (v = "9.5" \/ v = "9" ->
             result_of validateOS h = Some (msg_unsupported_version v))).
Proof.
  assert (General : forall h data version,
      ReadFile_result h "/etc/os-release" = inl data ->
      isRHEL data = true ->
      versionField data = Some version ->
      (result_of validateOS h = None <->
       meetsMinimum (fst (parseVersion version)) (snd (parseVersion version)))
      /\ (forall a b,
             numeral a -> numeral b -> version = a ++ "." ++ b ->
             parseVersion version
             = (Z.min (decimal_value a) strconv.maxInt,
                Z.min (decimal_value b) strconv.maxInt)
             /\ (result_of validateOS h = None <->
                 meetsMinimum (decimal_value a) (decimal_value b)))
      /\ (forall a,
             numeral a -> version = a ->
             parseVersion version = (Z.min (decimal_value a) strconv.maxInt, 0)
             /\ (result_of validateOS h = None <->
                 meetsMinimum (decimal_value a) 0))).
  { intros h data version Hrel Hrhel Hver.
    pose proof (validateOS_passes_iff h data version Hrel Hrhel Hver) as P.
    split; [exact P|]. split.
    - intros a b Ha Hb ->. pose proof (parseVersion_two a b Ha Hb) as E.
      split; [exact E|]. rewrite P, E. apply meetsMinimum_saturated.
    - intros a Ha ->. pose proof (parseVersion_one a Ha) as E.
      split; [exact E|]. rewrite P, E. cbn [fst snd].
      rewrite <- (meetsMinimum_saturated (decimal_value a) 0).
      reflexivity. }
  split; [exact General|]. split.
  - intros h a b Ha Hb Hrel.
    assert (V : versionField (os_release (a ++ "." ++ b)) = Some (a ++ "." ++ b))
      by (apply os_release_versionField; apply version_clean;
          auto; try reflexivity; discriminate).
    destruct (General h _ _ Hrel (os_release_isRHEL _) V) as (_ & Two & _).
    now apply (Two a b Ha Hb).
  - intros h v Hrel. rewrite (validateOS_readable h _ Hrel).
    split; intros Hv; split_cases; subst v; vm_compute; reflexivity.
Qed.

Lemma validateOS_version_rule_witness :
  ReadFile_result host_ok "/etc/os-release" = inl (os_release "9.6")
  /\ isRHEL (os_release "9.6") = true
  /\ versionField (os_release "9.6") = Some "9.6"
  /\ numeral "9" /\ numeral "6"
  /\ (result_of validateOS host_ok = None <->
      meetsMinimum (decimal_value "9") (decimal_value "6")).
Proof.
  assert (N9 : numeral "9") by (split; [discriminate | reflexivity]).
  assert (N6 : numeral "6") by (split; [discriminate | reflexivity]).
  repeat (split; [reflexivity || assumption|]).
  exact (proj2 (proj1 (proj2 (proj1 validateOS_version_rule host_ok
                                (os_release "9.6") "9.6" eq_refl eq_refl eq_refl))
                  "9" "6" N9 N6 eq_refl)).
Defined.

(** C6.  The distribution test succeeds exactly when the content of the
    release file contains one of the three markers, and the check
    fails with the unsupported-operating-system message exactly when it
    contains none. *)
Theorem distribution_markers (h : Host) (data : string)
  (Hrel : ReadFile_result h "/etc/os-release" = inl data) :
  (isRHEL data = true <->
   occurs "Red Hat Enterprise Linux" data
   \/ occurs ("ID=" ++ dquote ++ "rhel" ++ dquote) data
   \/ occurs "ID=rhel" data)
  /\ (result_of validateOS h = Some msg_unsupported_os <->
      ~ (occurs "Red Hat Enterprise Linux" data
         \/ occurs ("ID=" ++ dquote ++ "rhel" ++ dquote) data
         \/ occurs "ID=rhel" data))
  /\ (result_of validateOS h <> Some msg_unsupported_os <->
      occurs "Red Hat Enterprise Linux" data
      \/ occurs ("ID=" ++ dquote ++ "rhel" ++ dquote) data
      \/ occurs "ID=rhel" data).
Proof.
  pose proof (isRHEL_spec data) as S.
  unfold marker_name, marker_id_quoted, marker_id_plain in S.
  pose proof (validateOS_unsupported_os h data Hrel) as U.
  split; [exact S|]. split.
  - rewrite U, <- S. destruct (isRHEL data); intuition congruence.
  - rewrite <- S. split.
    + intros N. destruct (isRHEL data) eqn:E; [reflexivity|].
      exfalso. apply N. now apply U.
    + intros E N. apply U in N. congruence.
Qed.

Lemma distribution_markers_witness :
  ReadFile_result host_other_os "/etc/os-release" = inl release_other_os
  /\ result_of validateOS host_other_os = Some msg_unsupported_os
  /\ ~ (occurs "Red Hat Enterprise Linux" release_other_os
        \/ occurs ("ID=" ++ dquote ++ "rhel" ++ dquote) release_other_os
        \/ occurs "ID=rhel" release_other_os).
Proof.
  split; [reflexivity|].
  assert (R : result_of validateOS host_other_os = Some msg_unsupported_os)
    by (vm_compute; reflexivity).
  split; [exact R|].
  exact (proj1 (proj1 (proj2 (distribution_markers host_other_os
                                release_other_os eq_refl))) R).
Defined.

(* ================================================================= *)
(** ** The architecture check and unreadable files *)

Lemma msg_arch_not_power arch : msg_unsupported_arch arch <> msg_unsupported_power.
Proof. unfold msg_unsupported_arch, msg_unsupported_power. simpl. discriminate. Qed.

Lemma failures_In_os h e : result_of validateOS h = Some e -> In e (failures h).
Proof. intros H. unfold failures. rewrite H. now left. Qed.

Lemma failures_In_power h e :
  result_of validatePowerVersion h = Some e -> In e (failures h).
Proof.
  intros H. unfold failures. rewrite H.
  do 4 (apply in_or_app; right). apply in_or_app. left. now left.
Qed.

Lemma validatePowerVersion_passes_iff h :
  result_of validatePowerVersion h = None <->
  GOARCH h = "ppc64le"
  /\ exists data, ReadFile_result h "/proc/cpuinfo" = inl data
                  /\ occurs "POWER11" data.
Proof.
  unfold result_of. rewrite validatePowerVersion_eq.
  destruct (String.eqb_spec (GOARCH h) "ppc64le") as [A|A]; cbn [negb].
  - destruct (ReadFile_result h "/proc/cpuinfo") as [data|e].
    + destruct (strings.Contains data "POWER11") eqn:C; cbn [fst].
      * split; [|reflexivity]. intros _. split; [exact A|].
        exists data. split; [reflexivity | now apply Contains_spec].
      * split; [discriminate|]. intros (_ & d & [= <-] & O).
        apply Contains_spec in O. congruence.
    + split; [discriminate|]. intros (_ & d & E & _). discriminate E.
  - split; [discriminate|]. intros [E _]. contradiction.
Qed.

(** C5.  The architecture check passes exactly when the target
    architecture is ppc64le and the CPU-info file is readable and
    contains POWER11.  On another architecture it fails with the
    unsupported-architecture message, which names the architecture; on
    ppc64le without a readable CPU-info file naming POWER11 it fails
    with the unsupported-Power-version message.  The two messages
    differ, and neither failure ends the run: it is collected and the
    license check still runs. *)
Theorem validatePowerVersion_rule (h : Host) :
  (result_of validatePowerVersion h = None <->
   GOARCH h = "ppc64le"
   /\ exists data, ReadFile_result h "/proc/cpuinfo" = inl data
                   /\ occurs "POWER11" data)
  /\ (GOARCH h <> "ppc64le" ->
      result_of validatePowerVersion h
      = Some ("❌ unsupported architecture: " ++ GOARCH h
              ++ ". IBM Power architecture (ppc64le) is required"))
  /\ (GOARCH h = "ppc64le" ->
      ~ (exists data, ReadFile_result h "/proc/cpuinfo" = inl data
                      /\ occurs "POWER11" data) ->
      result_of validatePowerVersion h
      = Some "❌ unsupported IBM Power version: POWER11 is required")
  /\ (forall arch,
         msg_unsupported_arch arch <> msg_unsupported_power
         /\ occurs arch (msg_unsupported_arch arch))
  /\ (euid h = 0 ->
      forall e, result_of validatePowerVersion h = Some e ->
      In e (failures h)
      /\ result_of RunE h = aggregate (failures h)
      /\ In (Log DebugLevel "Validating RHAIIS license..." []) (trace_of RunE h)).
Proof.
  pose proof (validatePowerVersion_passes_iff h) as P.
  split; [exact P|]. split; [|split; [|split]].
  - intros A. unfold result_of. rewrite validatePowerVersion_eq.
    destruct (String.eqb_spec (GOARCH h) "ppc64le"); [contradiction|reflexivity].
  - intros A N. unfold result_of in *. rewrite validatePowerVersion_eq in *.
    rewrite A in *. cbn [String.eqb Ascii.eqb Bool.eqb negb] in *.
    destruct (ReadFile_result h "/proc/cpuinfo") as [data|e]; [|reflexivity].
    destruct (strings.Contains data "POWER11"); [|reflexivity].
    exfalso. apply N. now apply P.
  - intros arch. split; [apply msg_arch_not_power|].
    now exists "❌ unsupported architecture: ",
      ". IBM Power architecture (ppc64le) is required".
  - intros E e He. split; [now apply failures_In_power|]. split.
    + unfold result_of. now rewrite (RunE_root h E).
    + apply (subsequence_In _ _ (RunE_markers h E)).
      unfold check_markers. simpl. tauto.
Qed.

Lemma validatePowerVersion_rule_witness :
  (GOARCH host_amd64 <> "ppc64le"
   /\ result_of validatePowerVersion host_amd64
      = Some ("❌ unsupported architecture: " ++ GOARCH host_amd64
              ++ ". IBM Power architecture (ppc64le) is required"))
  /\ (euid host_power10 = 0
      /\ result_of validatePowerVersion host_power10 = Some msg_unsupported_power
      /\ In msg_unsupported_power (failures host_power10)).
Proof.
  split.
  - assert (A : GOARCH host_amd64 <> "ppc64le") by (vm_compute; discriminate).
    split; [exact A|].
    exact (proj1 (proj2 (validatePowerVersion_rule host_amd64)) A).
  - split; [reflexivity|]. split; [reflexivity|].
    exact (proj1 (proj2 (proj2 (proj2 (proj2 (validatePowerVersion_rule host_power10))))
                    eq_refl msg_unsupported_power eq_refl)).
Defined.

(** On ppc64le an unreadable CPU-info file and a readable one naming a
    POWER10 give the same result and the same trace; the message does
    not contain the read error. *)
Lemma unreadable_cpuinfo_reported_as_mismatch :
  GOARCH host_cpuinfo_unreadable = "ppc64le"
  /\ ReadFile_result host_cpuinfo_unreadable "/proc/cpuinfo" = inr cpuinfo_denied
  /\ ReadFile_result host_power10 "/proc/cpuinfo" = inl cpuinfo_power10
  /\ result_of validatePowerVersion host_cpuinfo_unreadable
     = Some "❌ unsupported IBM Power version: POWER11 is required"
  /\ result_of validatePowerVersion host_cpuinfo_unreadable
     = result_of validatePowerVersion host_power10
  /\ trace_of validatePowerVersion host_cpuinfo_unreadable
     = trace_of validatePowerVersion host_power10
  /\ ~ occurs cpuinfo_denied msg_unsupported_power.
Proof.
  repeat (split; [reflexivity|]).
  apply Index_none. vm_compute. reflexivity.
Qed.

(** C9, as the code has it.  An unreadable release file makes the
    distribution check fail with the read error itself, unchanged, and
    the failure is collected like any other.  An unreadable CPU-info
    file on ppc64le makes the architecture check fail with the same
    unsupported-Power-version message as a CPU-info file that does not
    name POWER11: the read error is dropped.  Neither ends the run. *)
Theorem unreadable_files (h : Host) (e : error) :
  (ReadFile_result h "/etc/os-release" = inr e ->
   result_of validateOS h = Some e
   /\ (euid h = 0 ->
       In e (failures h) /\ result_of RunE h = aggregate (failures h)
       /\ subsequence check_markers (trace_of RunE h)))
  /\ (GOARCH h = "ppc64le" ->
      ReadFile_result h "/proc/cpuinfo" = inr e ->
      result_of validatePowerVersion h = Some msg_unsupported_power
      /\ (forall h' data,
             GOARCH h' = "ppc64le" ->
             ReadFile_result h' "/proc/cpuinfo" = inl data ->
             ~ occurs "POWER11" data ->
             validatePowerVersion h' = validatePowerVersion h)
      /\ (euid h = 0 ->
          In msg_unsupported_power (failures h)
          /\ result_of RunE h = aggregate (failures h)
          /\ subsequence check_markers (trace_of RunE h))).
Proof.
  assert (Run : euid h = 0 ->
                result_of RunE h = aggregate (failures h)
                /\ subsequence check_markers (trace_of RunE h)).
  { intros E. split; [|now apply RunE_markers].
    unfold result_of. now rewrite (RunE_root h E). }
  split.
  - intros R.
    assert (O : result_of validateOS h = Some e)
      by (unfold result_of; now rewrite (validateOS_unreadable h e R)).
    split; [exact O|]. intros E. split; [now apply failures_In_os | now apply Run].
  - intros A R.
    assert (V : validatePowerVersion h
                = (Some msg_unsupported_power,
                   [Log DebugLevel "Validating IBM Power version..." [];
                    ReadFile_call "/proc/cpuinfo"]))
      by (now rewrite validatePowerVersion_eq, A, R).
    assert (O : result_of validatePowerVersion h = Some msg_unsupported_power)
      by (unfold result_of; now rewrite V).
    split; [exact O|]. split.
    + intros h' data A' R' N. rewrite V, validatePowerVersion_eq, A', R'.
      cbn [String.eqb Ascii.eqb Bool.eqb negb].
      destruct (strings.Contains data "POWER11") eqn:C; [|reflexivity].
      apply Contains_spec in C. contradiction.
    + intros E. split; [now apply failures_In_power | now apply Run].
Qed.

Lemma unreadable_files_witness :
  (ReadFile_result host_release_unreadable "/etc/os-release" = inr release_missing
   /\ result_of validateOS host_release_unreadable = Some release_missing)
  /\ (GOARCH host_cpuinfo_unreadable = "ppc64le"
      /\ ReadFile_result host_cpuinfo_unreadable "/proc/cpuinfo" = inr cpuinfo_denied
      /\ result_of validatePowerVersion host_cpuinfo_unreadable
         = Some msg_unsupported_power).
Proof.
  split.
  - split; [reflexivity|].
    exact (proj1 (proj1 (unreadable_files host_release_unreadable release_missing)
                    eq_refl)).
  - split; [reflexivity|]. split; [reflexivity|].
    exact (proj1 (proj2 (unreadable_files host_cpuinfo_unreadable cpuinfo_denied)
                    eq_refl eq_refl)).
Defined.


(* ================================================================= *)
(** ** What a run writes, what it reads *)

Lemma validateOS_quiet (h : Host) :
  written (trace_of validateOS h) = []
  /\ host_calls (trace_of validateOS h) = [ReadFile_call "/etc/os-release"].
Proof.
  unfold validateOS. run_check.
  destruct (ReadFile_result h "/etc/os-release") as [data|e]; [|now split].
  destruct (negb _); [now split|].
  destruct (strings.Index data "VERSION_ID=" =? -1); [now split|].
  cbv zeta. destruct (_ || _); now split.
Qed.

Lemma validatePowerVersion_quiet (h : Host) :
  written (trace_of validatePowerVersion h) = []
  /\ host_calls (trace_of validatePowerVersion h)
     = if String.eqb (GOARCH h) "ppc64le"
       then [ReadFile_call "/proc/cpuinfo"] else [].
Proof.
  unfold trace_of. rewrite validatePowerVersion_eq.
  destruct (String.eqb (GOARCH h) "ppc64le"); cbn [negb]; [|now split].
  destruct (ReadFile_result h "/proc/cpuinfo") as [data|e]; [|now split].
  destruct (strings.Contains data "POWER11"); now split.
Qed.

Lemma written_report (errs : list error) : written (report errs) = report errs.
Proof.
  destruct errs as [|e errs]; [reflexivity|].
  unfold report. generalize (numbered_from 1 (e :: errs)). intros l.
  unfold written. cbn [filter is_written].
  change (Enabled ErrorLevel) with true. cbv iota. f_equal.
  induction l as [|m l IH]; [reflexivity|]. cbn [map filter is_written].
  change (Enabled ErrorLevel) with true. cbv iota. now rewrite IH.
Qed.

Lemma host_calls_report (errs : list error) : host_calls (report errs) = [].
Proof.
  destruct errs as [|e errs]; [reflexivity|].
  unfold report. generalize (numbered_from 1 (e :: errs)). intros l.
  unfold host_calls. cbn [filter is_host_call].
  induction l as [|m l IH]; [reflexivity|]. now cbn [map filter is_host_call].
Qed.

Lemma written_run (h : Host) :
  written (trace_of RunE h) =
  if euid h =? 0
  then Log InfoLevel "Running bootstrap validation..." [] :: report (failures h)
  else [Log InfoLevel "Running bootstrap validation..." [];
        Log ErrorLevel "❌ Current user is not root." []].
Proof.
  unfold trace_of at 1. destruct (Z.eqb_spec (euid h) 0) as [E|N].
  - rewrite (RunE_root h E). cbn [snd]. unfold full_trace, written.
    rewrite !filter_app. fold (written (trace_of validateOS h)).
    fold (written (trace_of validatePowerVersion h)).
    fold (written (report (failures h))).
    rewrite (proj1 (validateOS_quiet h)), (proj1 (validatePowerVersion_quiet h)),
      written_report.
    unfold podman_trace. destruct (Podman_result h); reflexivity.
  - rewrite (RunE_not_root h N). reflexivity.
Qed.

(** X1.  At the level the logger is configured with, a run writes its
    opening line and then, when the user is not root, the one error
    line of the privilege check; when the user is root, the report and
    nothing else.  No line of a check of its own is written, and the
    failure messages reach the log through the report alone. *)
Theorem written_log (h : Host) :
  written (trace_of RunE h)
  = (if euid h =? 0
     then Log InfoLevel "Running bootstrap validation..." []
          :: report (failures h)
     else [Log InfoLevel "Running bootstrap validation..." [];
           Log ErrorLevel "❌ Current user is not root." []])
  /\ written (trace_of validateOS h) = []
  /\ written (trace_of validateRHNRegistration h) = []
  /\ written (trace_of validateLTCRPMRepo h) = []
  /\ written (trace_of validatePowerVersion h) = []
  /\ written (trace_of validateRHAIISLicense h) = []
  /\ written (report (failures h)) = report (failures h).
Proof.
  split; [apply written_run|].
  split; [apply validateOS_quiet|].
  do 2 (split; [reflexivity|]).
  split; [apply validatePowerVersion_quiet|].
  split; [reflexivity | apply written_report].
Qed.

(** X2.  The calls a run makes to the host: the effective user id once;
    then, for root, the release file once, the Podman validator once
    and, on ppc64le only, the CPU-info file once.  No other file is
    read and nothing is read twice. *)
Theorem host_calls_of_run (h : Host) :
  host_calls (trace_of RunE h) =
  if euid h =? 0
  then ([Geteuid_call; ReadFile_call "/etc/os-release"; Podman_call]
        ++ (if String.eqb (GOARCH h) "ppc64le"
            then [ReadFile_call "/proc/cpuinfo"] else []))%list
  else [Geteuid_call].
Proof.
  unfold trace_of at 1. destruct (Z.eqb_spec (euid h) 0) as [E|N].
  - rewrite (RunE_root h E). cbn [snd]. unfold full_trace, host_calls.
    rewrite !filter_app. fold (host_calls (trace_of validateOS h)).
    fold (host_calls (trace_of validatePowerVersion h)).
    fold (host_calls (report (failures h))).
    rewrite (proj2 (validateOS_quiet h)), (proj2 (validatePowerVersion_quiet h)),
      host_calls_report.
    unfold podman_trace.
    destruct (Podman_result h), (String.eqb (GOARCH h) "ppc64le"); reflexivity.
  - rewrite (RunE_not_root h N). reflexivity.
Qed.

Lemma validateOS_frame (h h' : Host) :
  ReadFile_result h "/etc/os-release" = ReadFile_result h' "/etc/os-release" ->
  validateOS h = validateOS h'.
Proof.
  intros R. unfold validateOS. run_check. rewrite R.
  destruct (ReadFile_result h' "/etc/os-release") as [data|e]; [|reflexivity].
  destruct (negb _); [reflexivity|].
  destruct (strings.Index data "VERSION_ID=" =? -1); [reflexivity|].
  cbv zeta. destruct (_ || _); reflexivity.
Qed.

Lemma validatePowerVersion_frame (h h' : Host) :
  GOARCH h = GOARCH h' ->
  (GOARCH h = "ppc64le" ->
   ReadFile_result h "/proc/cpuinfo" = ReadFile_result h' "/proc/cpuinfo") ->
  validatePowerVersion h = validatePowerVersion h'.
Proof.
  intros A R. rewrite !validatePowerVersion_eq, <- A.
  destruct (String.eqb_spec (GOARCH h) "ppc64le") as [E|_]; [|reflexivity].
  now rewrite (R E).
Qed.

(** X3.  A run depends on the host through what it reads and no more:
    two hosts with the same effective user id give the same result and
    the same trace when the user is not root, and when the user is root
    and they agree on the architecture, on the release file, on the
    Podman validator and, on ppc64le, on the CPU-info file. *)
Theorem run_depends_only_on_what_it_reads (h h' : Host)
  (Heuid : euid h = euid h')
  (Hroot : euid h = 0 ->
           GOARCH h = GOARCH h'
           /\ ReadFile_result h "/etc/os-release"
              = ReadFile_result h' "/etc/os-release"
           /\ Podman_result h = Podman_result h'
           /\ (GOARCH h = "ppc64le" ->
               ReadFile_result h "/proc/cpuinfo"
               = ReadFile_result h' "/proc/cpuinfo")) :
  RunE h = RunE h'.
Proof.
  destruct (Z.eq_dec (euid h) 0) as [E|N].
  - destruct (Hroot E) as (A & R & P & C).
    rewrite (RunE_root h E), (RunE_root h') by congruence.
    unfold full_trace, failures, podman_trace, result_of, trace_of.
    now rewrite (validateOS_frame h h' R), (validatePowerVersion_frame h h' A C), P.
  - rewrite (RunE_not_root h N), (RunE_not_root h') by congruence.
    unfold root_failed. now rewrite Heuid.
Qed.

Lemma run_depends_only_on_what_it_reads_witness :
  ReadFile_result host_ok "/etc/hostname"
  <> ReadFile_result host_ok_more_files "/etc/hostname"
  /\ RunE host_ok = RunE host_ok_more_files.
Proof.
  split; [vm_compute; discriminate|].
  apply (run_depends_only_on_what_it_reads host_ok host_ok_more_files);
    [reflexivity|]. intros _. repeat split; reflexivity.
Defined.

Lemma failures_collected (h : Host) :
  failures h
  = (opt_list (result_of validateOS h)
     ++ opt_list (option_map msg_podman (Podman_result h))
     ++ opt_list (result_of validatePowerVersion h))%list.
Proof.
  unfold failures. cbn [result_of validateRHNRegistration validateLTCRPMRepo
    validateRHAIISLicense bind logger_Debug emit ret fst opt_list app].
  now rewrite app_nil_r.
Qed.

(** X4.  Three of the six collected checks cannot fail, so a run
    collects at most three failures, in the order release file, Podman,
    architecture; the bound is reached.  The error of a run is the
    privilege error or one of three aggregate errors. *)
Theorem at_most_three_failures (h : Host) :
  failures h
  = (opt_list (result_of validateOS h)
     ++ opt_list (option_map msg_podman (Podman_result h))
     ++ opt_list (result_of validatePowerVersion h))%list
  /\ (List.length (failures h) <= 3)%nat
  /\ (result_of RunE h = None
      \/ result_of RunE h = Some "root privileges are required to run this command"
      \/ result_of RunE h = Some "1 validation check(s) failed"
      \/ result_of RunE h = Some "2 validation check(s) failed"
      \/ result_of RunE h = Some "3 validation check(s) failed")
  /\ List.length (failures host_all_fail) = 3%nat.
Proof.
  pose proof (failures_collected h) as F.
  split; [exact F|].
  assert (L : (List.length (failures h) <= 3)%nat).
  { rewrite F. destruct (result_of validateOS h), (Podman_result h),
      (result_of validatePowerVersion h); simpl; lia. }
  split; [exact L|]. split; [|reflexivity].
  unfold result_of at 1 2 3 4 5. destruct (Z.eq_dec (euid h) 0) as [E|N].
  - rewrite (RunE_root h E). cbn [fst].
    destruct (failures h) as [|e1 [|e2 [|e3 [|e4 l]]]];
      [tauto | tauto | tauto | tauto | simpl in L; lia].
  - rewrite (RunE_not_root h N). tauto.
Qed.

(** X5.  When the Podman validator fails in a run by root, its error
    text is wrapped into a failure that the log shows in the report, on
    line 1 when the release-file check passed and on line 2 when it
    failed. *)
Theorem podman_failure_is_reported (h : Host) (e : error)
  (Hroot : euid h = 0) (Hpodman : Podman_result h = Some e) :
  In (Log ErrorLevel
        ("  "
         ++ match result_of validateOS h with Some _ => "2" | None => "1" end
         ++ ". ❌ podman validation failed: " ++ e) [])
     (written (trace_of RunE h))
  /\ result_of RunE h <> None.
Proof.
  rewrite written_run, Hroot. cbn [Z.eqb].
  pose proof (failures_collected h) as F.
  split.
  - right. destruct (result_of validateOS h) as [o|] eqn:O.
    + replace "2" with (fmt_d (Z.of_nat 1 + 1)) by reflexivity.
      apply report_lines. rewrite F, Hpodman. reflexivity.
    + replace "1" with (fmt_d (Z.of_nat 0 + 1)) by reflexivity.
      apply report_lines. rewrite F, Hpodman. reflexivity.
  - unfold result_of at 1. rewrite (RunE_root h Hroot). cbn [fst].
    rewrite F, Hpodman. destruct (result_of validateOS h); discriminate.
Qed.

Lemma podman_failure_is_reported_witness :
  euid host_mixed = 0 /\ Podman_result host_mixed = Some podman_missing
  /\ In (Log ErrorLevel
           ("  2. ❌ podman validation failed: " ++ podman_missing) [])
        (written (trace_of RunE host_mixed)).
Proof.
  split; [reflexivity|]. split; [reflexivity|].
  exact (proj1 (podman_failure_is_reported host_mixed podman_missing
                  eq_refl eq_refl)).
Defined.

(* ================================================================= *)
(** ** [strings.Split] and [strings.Trim] on one byte *)

Section SplitFacts.

Variable c : ascii.
Local Abbreviation sep := (String c "").

Lemma length_drop_le k s :
  (String.length (drop k s) <= String.length s - k)%nat.
Proof.
  revert s; induction k as [|k IH]; intros [|d s]; simpl; try lia. apply IH.
Qed.

Lemma Count_loop_acc fuel s n :
  strings.Count_loop fuel s sep n = n + strings.Count_loop fuel s sep 0.
Proof.
  revert s n; induction fuel as [|fuel IH]; intros s n; simpl; [lia|].
  destruct (strings.Index s sep =? -1); [lia|].
  rewrite (IH _ (n + 1)), (IH _ (0 + 1)). lia.
Qed.

Lemma Count_loop_nonneg fuel s : 0 <= strings.Count_loop fuel s sep 0.
Proof.
  revert s; induction fuel as [|fuel IH]; intros s; simpl; [lia|].
  destruct (strings.Index s sep =? -1); [lia|].
  rewrite Count_loop_acc. specialize (IH (slice_from s (strings.Index s sep + len sep))).
  lia.
Qed.

(** The loop of [Count] needs no more fuel than the length of the text. *)
Lemma Count_loop_fuel f1 : forall f2 s n,
  (String.length s <= f1)%nat -> (String.length s <= f2)%nat ->
  strings.Count_loop f1 s sep n = strings.Count_loop f2 s sep n.
Proof.
  assert (Empty : forall f n, strings.Count_loop f "" sep n = n)
    by (intros [|f] n; reflexivity).
  induction f1 as [|f1 IH]; intros f2 s n L1 L2.
  - destruct s; [|simpl in L1; lia]. now rewrite !Empty.
  - destruct f2 as [|f2].
    + destruct s; [|simpl in L2; lia]. now rewrite !Empty.
    + simpl. destruct (Z.eqb_spec (strings.Index s sep) (-1)) as [|N]; [reflexivity|].
      assert (P : 0 <= strings.Index s sep)
        by (destruct (Index_range s sep); tauto).
      pose proof (length_drop_le (Z.to_nat (strings.Index s sep + len sep)) s) as D.
      change (len sep) with 1 in *.
      apply IH; unfold slice_from; lia.
Qed.

Lemma Count_free s :
  strings.IndexByte s c = -1 -> strings.Count s sep = 0.
Proof.
  intros H. unfold strings.Count. apply Count_loop_last.
  now rewrite Index_single.
Qed.

Lemma Count_cons a t :
  strings.IndexByte a c = -1 ->
  strings.Count (a ++ String c t) sep = 1 + strings.Count t sep.
Proof.
  intros H. unfold strings.Count.
  assert (I : strings.Index (a ++ String c t) sep = len a)
    by (rewrite Index_single; now apply IndexByte_append_hit).
  assert (D : slice_from (a ++ String c t) (len a + len sep) = t).
  { replace (a ++ String c t) with ((a ++ sep) ++ t)
      by (now rewrite append_assoc).
    rewrite <- len_append. apply slice_from_append. }
  rewrite length_append. cbn [String.length]. rewrite Nat.add_succ_r.
  cbn [strings.Count_loop]. rewrite I. pose proof (len_nonneg a).
  destruct (Z.eqb_spec (len a) (-1)); [lia|].
  rewrite D, Count_loop_acc. f_equal. apply Count_loop_fuel; lia.
Qed.

(** The first piece of [Split] and the split of the rest. *)
Lemma Split_cons a t :
  strings.IndexByte a c = -1 ->
  strings.Split (a ++ String c t) sep = a :: strings.Split t sep.
Proof.
  intros H. unfold strings.Split. rewrite (Count_cons a t H).
  pose proof (Count_loop_nonneg (String.length t) t) as P.
  fold (strings.Count t sep) in P.
  replace (Z.to_nat (1 + strings.Count t sep))
    with (S (Z.to_nat (strings.Count t sep))) by lia.
  cbn [strings.genSplit_loop].
  assert (I : strings.Index (a ++ String c t) sep = len a)
    by (rewrite Index_single; now apply IndexByte_append_hit).
  rewrite I. pose proof (len_nonneg a). destruct (Z.ltb_spec (len a) 0); [lia|].
  rewrite slice_to_append. f_equal. f_equal.
  replace (a ++ String c t) with ((a ++ sep) ++ t)
    by (now rewrite append_assoc).
  rewrite <- len_append. apply slice_from_append.
Qed.

(** Where [IndexByte] finds [c], the text before it is free of [c]. *)
Lemma IndexByte_found s :
  strings.IndexByte s c <> -1 ->
  exists a t, s = a ++ String c t /\ strings.IndexByte a c = -1
              /\ len a = strings.IndexByte s c.
Proof.
  induction s as [|d s IH]; cbn [strings.IndexByte]; [congruence|].
  destruct (Ascii.eqb_spec d c) as [->|N].
  - intros _. now exists "", s.
  - destruct (Z.eqb_spec (strings.IndexByte s c) (-1)) as [|F]; [congruence|].
    intros _. destruct (IH F) as (a & t & -> & Fa & La).
    exists (String d a), t. split; [reflexivity|]. split.
    + cbn [strings.IndexByte]. destruct (Ascii.eqb_spec d c); [contradiction|].
      now rewrite Fa.
    + rewrite len_String. lia.
Qed.

Lemma Split_join_bounded n : forall s,
  (String.length s <= n)%nat ->
  String.concat sep (strings.Split s sep) = s
  /\ Forall (fun p => strings.IndexByte p c = -1) (strings.Split s sep).
Proof.
  induction n as [|n IH]; intros s L.
  - destruct s; [|simpl in L; lia]. split; [reflexivity|].
    repeat constructor.
  - destruct (Z.eq_dec (strings.IndexByte s c) (-1)) as [F|F].
    + rewrite (Split_free s c F). split; [reflexivity|].
      now repeat constructor.
    + destruct (IndexByte_found s F) as (a & t & -> & Fa & _).
      rewrite (Split_cons a t Fa).
      rewrite length_append in L. cbn [String.length] in L.
      destruct (IH t ltac:(lia)) as [J A]. split; [|now constructor].
      pose proof (Split_not_nil t sep ltac:(discriminate)) as NN.
      destruct (strings.Split t sep) as [|p ps]; [congruence|].
      cbn [String.concat]. cbn [String.concat] in J. now rewrite J.
Qed.

Lemma Split_of_join parts :
  parts <> [] ->
  Forall (fun p => strings.IndexByte p c = -1) parts ->
  strings.Split (String.concat sep parts) sep = parts.
Proof.
  induction parts as [|p ps IH]; [congruence|]. intros _ A.
  inversion A as [|? ? Fp Fps]; subst.
  destruct ps as [|q ps].
  - cbn [String.concat]. now apply Split_free.
  - change (String.concat sep (p :: q :: ps))
      with (p ++ String c (String.concat sep (q :: ps))).
    rewrite (Split_cons _ _ Fp). f_equal. apply IH; [discriminate | assumption].
Qed.

End SplitFacts.

(** X6.  [strings.Split] on a one-byte separator and joining with that
    separator are inverse: the pieces of a text are free of the
    separator and join back to the text, and a non-empty list of
    pieces free of the separator is what its join splits into. *)
Theorem Split_join_inverse (c : ascii) :
  (forall s,
      String.concat (String c "") (strings.Split s (String c "")) = s
      /\ strings.Split s (String c "") <> []
      /\ Forall (fun p => strings.IndexByte p c = -1)
                (strings.Split s (String c "")))
  /\ (forall parts,
         parts <> [] ->
         Forall (fun p => strings.IndexByte p c = -1) parts ->
         strings.Split (String.concat (String c "") parts) (String c "") = parts).
Proof.
  split.
  - intros s. destruct (Split_join_bounded c (String.length s) s (le_n _)) as [J A].
    split; [exact J|]. split; [|exact A]. apply Split_not_nil. discriminate.
  - apply Split_of_join.
Qed.

Lemma Split_join_inverse_witness :
  ["9"; "6"; "1"] <> []
  /\ Forall (fun p => strings.IndexByte p "."%char = -1) ["9"; "6"; "1"]
  /\ strings.Split (String.concat "." ["9"; "6"; "1"]) "." = ["9"; "6"; "1"].
Proof.
  assert (N : ["9"; "6"; "1"] <> []) by discriminate.
  assert (A : Forall (fun p => strings.IndexByte p "."%char = -1) ["9"; "6"; "1"])
    by (repeat constructor).
  split; [exact N|]. split; [exact A|].
  exact (proj2 (Split_join_inverse "."%char) ["9"; "6"; "1"] N A).
Defined.

(* ================================================================= *)
(** ** More on the version field *)

Lemma parseVersion_more a b rest :
  numeral a -> numeral b ->
  parseVersion (a ++ "." ++ b ++ "." ++ rest) = parseVersion (a ++ "." ++ b).
Proof.
  intros Ha Hb. rewrite (parseVersion_two a b Ha Hb). unfold parseVersion.
  change (a ++ "." ++ b ++ "." ++ rest)
    with (a ++ String "."%char (b ++ String "."%char rest)).
  rewrite !Split_cons
    by (apply numeral_free; [apply Ha || apply Hb | apply dot_not_digit]).
  cbn [index0 index1 nth List.length].
  rewrite (Atoi_numeral_value a Ha), (Atoi_numeral_value b Hb).
  destruct (Z.gtb_spec
              (Z.of_nat (S (S (List.length (strings.Split rest "."))))) 1);
    [reflexivity | lia].
Qed.

(** X7.  Components of the version after the second are ignored: a
    version a.b.rest, with a and b decimal numerals and any rest, is
    parsed and judged as a.b. *)
Theorem version_extra_components_ignored (h : Host) (data a b rest : string)
  (Hrel : ReadFile_result h "/etc/os-release" = inl data)
  (Hrhel : isRHEL data = true)
  (Hver : versionField data = Some (a ++ "." ++ b ++ "." ++ rest))
  (Ha : numeral a) (Hb : numeral b) :
  parseVersion (a ++ "." ++ b ++ "." ++ rest) = parseVersion (a ++ "." ++ b)
  /\ (result_of validateOS h = None <->
      meetsMinimum (decimal_value a) (decimal_value b)).
Proof.
  pose proof (parseVersion_more a b rest Ha Hb) as E. split; [exact E|].
  rewrite (validateOS_passes_iff h data _ Hrel Hrhel Hver), E,
    (parseVersion_two a b Ha Hb).
  apply meetsMinimum_saturated.
Qed.

Lemma version_extra_components_ignored_witness :
  ReadFile_result (host_of 0 "9.6.1" None) "/etc/os-release"
  = inl release_three_components
  /\ versionField release_three_components = Some ("9" ++ "." ++ "6" ++ "." ++ "1")
  /\ (result_of validateOS (host_of 0 "9.6.1" None) = None <->
      meetsMinimum (decimal_value "9") (decimal_value "6")).
Proof.
  split; [reflexivity|]. split; [reflexivity|].
  apply (version_extra_components_ignored (host_of 0 "9.6.1" None)
           release_three_components "9" "6" "1");
    try reflexivity; split; (discriminate || reflexivity).
Defined.

(** X8.  The version field is what follows the first VERSION_ID= of
    the content up to the end of its line (or of the content), with the
    double quotes at both ends removed; there is none exactly when
    VERSION_ID= does not occur. *)
Theorem versionField_spec (data : string) :
  (forall v,
      versionField data = Some v <->
      exists pre line tail,
        data = pre ++ "VERSION_ID=" ++ line ++ tail
        /\ len pre = strings.Index data "VERSION_ID="
        /\ strings.IndexByte line newline_byte = -1
        /\ (tail = "" \/ first_byte tail = Some newline_byte)
        /\ v = strings.Trim line dquote)
  /\ (versionField data = None <-> ~ occurs "VERSION_ID=" data).
Proof.
  split.
  - intros v. split.
    + unfold versionField.
      destruct (Z.eqb_spec (strings.Index data "VERSION_ID=") (-1)) as [|N];
        [discriminate|].
      assert (P : 0 <= strings.Index data "VERSION_ID=")
        by (destruct (Index_range data "VERSION_ID="); tauto).
      destruct (Index_found data "VERSION_ID=" P) as (pre & post & Hs & Hl).
      assert (R : slice_from data
                    (strings.Index data "VERSION_ID=" + len "VERSION_ID=") = post).
      { rewrite <- Hl, Hs.
        replace (pre ++ "VERSION_ID=" ++ post) with ((pre ++ "VERSION_ID=") ++ post)
          by apply append_assoc.
        rewrite <- len_append. apply slice_from_append. }
      rewrite R.
      destruct (Z.eqb_spec (strings.IndexByte post newline_byte) (-1)) as [F|F];
        cbn [negb]; intros [= <-].
      * exists pre, post, "". rewrite append_nil_r. repeat split; auto.
      * destruct (IndexByte_found newline_byte post F) as (a & t & -> & Fa & La).
        exists pre, a, (String newline_byte t). rewrite <- La, slice_to_append.
        repeat split; auto.
    + intros (pre & line & tail & Hs & Hl & Fl & Ht & ->). unfold versionField.
      pose proof (len_nonneg pre).
      destruct (Z.eqb_spec (strings.Index data "VERSION_ID=") (-1)); [lia|].
      assert (R : slice_from data
                    (strings.Index data "VERSION_ID=" + len "VERSION_ID=")
                  = line ++ tail).
      { rewrite <- Hl, Hs.
        replace (pre ++ "VERSION_ID=" ++ line ++ tail)
          with ((pre ++ "VERSION_ID=") ++ line ++ tail) by apply append_assoc.
        rewrite <- len_append. apply slice_from_append. }
      rewrite R, (IndexByte_append_free line tail newline_byte Fl). f_equal. f_equal.
      destruct Ht as [->|Ht].
      * cbn [strings.IndexByte Z.eqb negb]. apply append_nil_r.
      * destruct tail as [|d t]; [discriminate|]. injection Ht as ->.
        cbn [strings.IndexByte]. rewrite Ascii.eqb_refl. cbn [Z.eqb].
        pose proof (len_nonneg line).
        destruct (Z.eqb_spec (len line + 0) (-1)); [lia|]. cbn [negb].
        rewrite Z.add_0_r. apply slice_to_append.
  - unfold versionField. rewrite <- Index_none.
    destruct (Z.eqb_spec (strings.Index data "VERSION_ID=") (-1));
      split; congruence.
Qed.

(* ================================================================= *)
(** ** What [strings.Trim] removes *)

Section TrimFacts.

Variable c : ascii.
Local Abbreviation cutset := (String c "").

Lemma in_cutset d : (strings.IndexByte cutset d >=? 0) = Ascii.eqb d c.
Proof.
  cbn [strings.IndexByte]. rewrite (Ascii.eqb_sym c d).
  destruct (Ascii.eqb d c); reflexivity.
Qed.

Lemma last_byte_append l t : t <> "" -> last_byte (l ++ t) = last_byte t.
Proof.
  intros N. induction l as [|d l IH]; [reflexivity|].
  cbn [append last_byte]. rewrite IH.
  destruct (l ++ t) eqn:E; [|reflexivity].
  destruct l, t; simpl in E; congruence.
Qed.

Lemma last_byte_only r : only_byte c r = true -> r <> "" -> last_byte r = Some c.
Proof.
  induction r as [|d r IH]; [congruence|]. cbn [only_byte].
  rewrite andb_true_iff, Ascii.eqb_eq. intros [-> O] _.
  destruct r as [|e r]; [reflexivity|].
  change (last_byte (String c (String e r))) with (last_byte (String e r)).
  apply IH; [assumption | discriminate].
Qed.

Lemma TrimLeft_spec s :
  exists l, s = l ++ strings.TrimLeft s cutset /\ only_byte c l = true
            /\ first_byte (strings.TrimLeft s cutset) <> Some c.
Proof.
  induction s as [|d s (l & E & O & F)].
  - exists "". repeat split. discriminate.
  - cbn [strings.TrimLeft]. rewrite in_cutset.
    destruct (Ascii.eqb_spec d c) as [->|N].
    + exists (String c l). split; [simpl; now rewrite <- E|]. split; [|assumption].
      cbn [only_byte]. now rewrite Ascii.eqb_refl.
    + exists "". repeat split. cbn [first_byte]. congruence.
Qed.

Lemma TrimRight_spec s :
  exists r, s = strings.TrimRight s cutset ++ r /\ only_byte c r = true
            /\ last_byte (strings.TrimRight s cutset) <> Some c.
Proof.
  induction s as [|d s (r & E & O & L)].
  - exists "". repeat split. discriminate.
  - cbn [strings.TrimRight]. rewrite in_cutset.
    destruct (strings.TrimRight s cutset) as [|e t] eqn:T.
    + destruct (Ascii.eqb_spec d c) as [->|N].
      * exists (String c r). split; [simpl in *; now rewrite <- E|].
        split; [|discriminate]. cbn [only_byte]. now rewrite Ascii.eqb_refl.
      * exists r. split; [simpl in *; now rewrite <- E|]. split; [assumption|].
        cbn [last_byte]. congruence.
    + exists r. split; [simpl in *; now rewrite <- E|]. split; assumption.
Qed.

Lemma TrimRight_only r : only_byte c r = true -> strings.TrimRight r cutset = "".
Proof.
  induction r as [|d r IH]; [reflexivity|]. cbn [only_byte].
  rewrite andb_true_iff, Ascii.eqb_eq. intros [-> O].
  cbn [strings.TrimRight]. rewrite (IH O), in_cutset. now rewrite Ascii.eqb_refl.
Qed.

Lemma TrimRight_keeps x :
  last_byte x <> Some c -> strings.TrimRight x cutset = x.
Proof.
  induction x as [|d x IH]; [reflexivity|]. intros L.
  cbn [strings.TrimRight]. destruct x as [|e x].
  - cbn [strings.TrimRight]. rewrite in_cutset.
    destruct (Ascii.eqb_spec d c) as [->|]; [now elim L | reflexivity].
  - rewrite IH by exact L. reflexivity.
Qed.

Lemma TrimRight_append x r :
  only_byte c r = true -> x <> "" -> last_byte x <> Some c ->
  strings.TrimRight (x ++ r) cutset = x.
Proof.
  intros O. induction x as [|d x IH]; [congruence|]. intros _ L.
  cbn [append strings.TrimRight]. destruct x as [|e x].
  - cbn [append]. rewrite (TrimRight_only r O), in_cutset.
    destruct (Ascii.eqb_spec d c) as [->|]; [now elim L | reflexivity].
  - rewrite IH; [reflexivity | discriminate | exact L].
Qed.

Lemma TrimLeft_append l v :
  only_byte c l = true -> first_byte v <> Some c ->
  strings.TrimLeft (l ++ v) cutset = v.
Proof.
  intros O F. induction l as [|d l IH].
  - destruct v as [|e v]; [reflexivity|]. cbn [append strings.TrimLeft].
    rewrite in_cutset. destruct (Ascii.eqb_spec e c) as [->|]; [now elim F | reflexivity].
  - cbn [only_byte] in O. apply andb_true_iff in O as [E O].
    cbn [append strings.TrimLeft]. rewrite in_cutset, E. now apply IH.
Qed.

Lemma only_byte_append l r :
  only_byte c l = true -> only_byte c r = true -> only_byte c (l ++ r) = true.
Proof.
  intros L R. induction l as [|d l IH]; [assumption|].
  cbn [only_byte] in L. apply andb_true_iff in L as [E L].
  cbn [append only_byte]. now rewrite E, IH.
Qed.

End TrimFacts.

(** X9.  [strings.Trim] with a cutset of one ASCII byte removes a run
    of that byte at each end and nothing else: the text is a run of the byte,
    the result, and a run of the byte, and the result neither starts
    nor ends with the byte.  The result is the only text of which that
    can be said. *)
Theorem Trim_spec (c : ascii) (s : string) (Hascii : ascii_byte c) :
  (exists l r,
      s = l ++ strings.Trim s (String c "") ++ r
      /\ only_byte c l = true /\ only_byte c r = true)
  /\ first_byte (strings.Trim s (String c "")) <> Some c
  /\ last_byte (strings.Trim s (String c "")) <> Some c
  /\ (forall l v r,
         s = l ++ v ++ r ->
         only_byte c l = true -> only_byte c r = true ->
         first_byte v <> Some c -> last_byte v <> Some c ->
         strings.Trim s (String c "") = v).
Proof.
  unfold strings.Trim.
  destruct (TrimRight_spec c s) as (r & Er & Or & Lr).
  destruct (TrimLeft_spec c (strings.TrimRight s (String c "")))
    as (l & El & Ol & Fl).
  split; [|split; [|split]].
  - exists l, r. split; [|now split].
    rewrite <- append_assoc in *. now rewrite <- El.
  - exact Fl.
  - destruct (strings.TrimLeft (strings.TrimRight s (String c "")) (String c ""))
      as [|d t] eqn:T; [discriminate|].
    rewrite El in Lr. rewrite last_byte_append in Lr by discriminate. exact Lr.
  - clear. intros l v r -> Ol Or Fv Lv. destruct v as [|d v].
    + cbn [append]. rewrite (TrimRight_only c (l ++ r))
        by now apply only_byte_append.
      reflexivity.
    + rewrite <- append_assoc.
      rewrite (TrimRight_append c (l ++ String d v) r Or).
      * now apply TrimLeft_append.
      * destruct l; discriminate.
      * now rewrite last_byte_append by discriminate.
Qed.

Lemma Trim_spec_witness :
  ascii_byte dquote_byte
  /\ strings.Trim (dquote ++ dquote ++ "9.6" ++ dquote) dquote = "9.6".
Proof.
  assert (A : ascii_byte dquote_byte) by reflexivity.
  split; [exact A|].
  apply (proj2 (proj2 (proj2 (Trim_spec dquote_byte
                                (dquote ++ dquote ++ "9.6" ++ dquote) A)))
           (dquote ++ dquote) "9.6" dquote);
    (reflexivity || discriminate).
Defined.

(* ================================================================= *)
(** ** Signs in the version *)

Section SignFacts.

Import strconv.

Variable a : string.
Hypothesis a_numeral : numeral a.

Lemma numeral_bounds :
  1 <= len a /\ 0 <= decimal_value a < 10 ^ len a.
Proof.
  destruct a_numeral as [N A]. split.
  - destruct a; [congruence|]. rewrite len_String. pose proof (len_nonneg s). lia.
  - pose proof (decimal_acc_lt a 0 A ltac:(lia)).
    pose proof (decimal_acc_ge a 0 A ltac:(lia)). unfold decimal_value. lia.
Qed.

Lemma ParseUint_numeral :
  ParseUint a = if decimal_value a <=? maxUint64 then (decimal_value a, None)
                else (maxUint64, Some ErrRange).
Proof.
  destruct a_numeral as [N A]. unfold ParseUint.
  destruct a as [|d s]; [congruence|].
  apply (ParseUint_loop_digits _ 0 A). unfold maxUint64. lia.
Qed.

Lemma Atoi_plus : Atoi (String "+"%char a) = Atoi a.
Proof.
  rewrite (Atoi_numeral a a_numeral). destruct a_numeral as [N A].
  destruct numeral_bounds as (L1 & G & L).
  unfold Atoi. rewrite len_String. change (is_sign "+"%char) with true.
  change (Ascii.eqb "+"%char "-"%char) with false. cbv iota.
  change maxInt with 9223372036854775807.
  destruct (Z.ltb_spec 0 (len a + 1)); [|lia].
  destruct (Z.ltb_spec (len a + 1) 19); cbn [andb].
  - destruct (Z.ltb_spec (len a) 1); [lia|].
    rewrite (Atoi_fast_loop_digits a 0 A). fold (decimal_value a).
    assert (10 ^ len a <= 10 ^ 18) by (apply Z.pow_le_mono_r; lia).
    destruct (Z.leb_spec (decimal_value a) 9223372036854775807); [reflexivity|lia].
  - unfold ParseInt. change (is_sign "+"%char) with true.
    change (Ascii.eqb "+"%char "-"%char) with false. cbv iota.
    rewrite ParseUint_numeral. change maxUint64 with 18446744073709551615.
    change (2 ^ (intSize - 1)) with 9223372036854775808. cbn [negb andb].
    destruct (Z.leb_spec (decimal_value a) 18446744073709551615).
    + destruct (Z.geb_spec (decimal_value a) 9223372036854775808);
        destruct (Z.leb_spec (decimal_value a) 9223372036854775807);
        try lia; reflexivity.
    + destruct (Z.leb_spec (decimal_value a) 9223372036854775807);
        [lia | reflexivity].
Qed.

Lemma Atoi_minus :
  Atoi (String "-"%char a)
  = if decimal_value a <=? 2 ^ 63 then (- decimal_value a, None)
    else (minInt, Some ErrRange).
Proof.
  destruct a_numeral as [N A].
  destruct numeral_bounds as (L1 & G & L).
  unfold Atoi. rewrite len_String. change (is_sign "-"%char) with true.
  change (Ascii.eqb "-"%char "-"%char) with true. cbv iota.
  change minInt with (-9223372036854775808).
  change (2 ^ 63) with 9223372036854775808.
  destruct (Z.ltb_spec 0 (len a + 1)); [|lia].
  destruct (Z.ltb_spec (len a + 1) 19); cbn [andb].
  - destruct (Z.ltb_spec (len a) 1); [lia|].
    rewrite (Atoi_fast_loop_digits a 0 A). fold (decimal_value a).
    assert (10 ^ len a <= 10 ^ 18) by (apply Z.pow_le_mono_r; lia).
    destruct (Z.leb_spec (decimal_value a) 9223372036854775808); [reflexivity|lia].
  - unfold ParseInt. change (is_sign "-"%char) with true.
    change (Ascii.eqb "-"%char "-"%char) with true. cbv iota.
    rewrite ParseUint_numeral. change maxUint64 with 18446744073709551615.
    change (2 ^ (intSize - 1)) with 9223372036854775808. cbn [negb andb].
    destruct (Z.leb_spec (decimal_value a) 18446744073709551615).
    + destruct (Z.gtb_spec (decimal_value a) 9223372036854775808);
        destruct (Z.leb_spec (decimal_value a) 9223372036854775808);
        try lia; reflexivity.
    + destruct (Z.leb_spec (decimal_value a) 9223372036854775808);
        [lia | reflexivity].
Qed.

End SignFacts.

Lemma signed_major_split (sign : ascii) (a b : string) :
  sign <> "."%char -> numeral a -> numeral b ->
  strings.Split (String sign a ++ "." ++ b) "." = [String sign a; b].
Proof.
  intros S [_ Ha] [_ Hb].
  change (String sign a ++ "." ++ b) with (String sign a ++ String "."%char b).
  apply Split_two; [|now apply numeral_free].
  cbn [strings.IndexByte]. destruct (Ascii.eqb_spec sign "."%char); [contradiction|].
  now rewrite (numeral_free a "."%char Ha dot_not_digit).
Qed.

(** X10.  [Atoi] accepts a sign, so the check does too: a version
    +a.b is judged as a.b, and a version -a.b fails whatever a and b
    are, with the unsupported-version message. *)
Theorem signed_versions (h : Host) (data a b : string)
  (Hrel : ReadFile_result h "/etc/os-release" = inl data)
  (Hrhel : isRHEL data = true)
  (Ha : numeral a) (Hb : numeral b) :
  (versionField data = Some ("+" ++ a ++ "." ++ b) ->
   (result_of validateOS h = None <->
    meetsMinimum (decimal_value a) (decimal_value b)))
  /\ (versionField data = Some ("-" ++ a ++ "." ++ b) ->
      fst (parseVersion ("-" ++ a ++ "." ++ b)) <= 0
      /\ result_of validateOS h
         = Some (msg_unsupported_version ("-" ++ a ++ "." ++ b))).
Proof.
  split; intros Hver.
  - rewrite (validateOS_passes_iff h data _ Hrel Hrhel Hver).
    unfold parseVersion.
    change ("+" ++ a ++ "." ++ b) with (String "+"%char a ++ "." ++ b).
    rewrite (signed_major_split "+"%char a b ltac:(discriminate) Ha Hb).
    cbn [index0 index1 nth List.length Z.of_nat fst snd Pos.of_succ_nat Pos.succ
         Z.gtb Z.compare Pos.compare Pos.compare_cont].
    rewrite (Atoi_plus a Ha), (Atoi_numeral_value a Ha), (Atoi_numeral_value b Hb).
    apply meetsMinimum_saturated.
  - assert (M : fst (parseVersion ("-" ++ a ++ "." ++ b)) <= 0).
    { unfold parseVersion.
      change ("-" ++ a ++ "." ++ b) with (String "-"%char a ++ "." ++ b).
      rewrite (signed_major_split "-"%char a b ltac:(discriminate) Ha Hb).
      cbn [index0 nth fst]. rewrite (Atoi_minus a Ha).
      destruct (numeral_bounds a Ha) as (_ & G & _).
      change strconv.minInt with (-9223372036854775808).
      destruct (decimal_value a <=? 2 ^ 63); cbn [fst]; lia. }
    split; [exact M|].
    rewrite (validateOS_versioned h data _ Hrel Hrhel Hver).
    destruct (Z.ltb_spec (fst (parseVersion ("-" ++ a ++ "." ++ b))) 9); [|lia].
    reflexivity.
Qed.

Lemma signed_versions_witness :
  ReadFile_result (host_of 0 "+9.6" None) "/etc/os-release"
  = inl (os_release "+9.6")
  /\ versionField (os_release "+9.6") = Some ("+" ++ "9" ++ "." ++ "6")
  /\ (result_of validateOS (host_of 0 "+9.6" None) = None <->
      meetsMinimum (decimal_value "9") (decimal_value "6")).
Proof.
  assert (N9 : numeral "9") by (split; [discriminate | reflexivity]).
  assert (N6 : numeral "6") by (split; [discriminate | reflexivity]).
  split; [reflexivity|]. split; [reflexivity|].
  exact (proj1 (signed_versions (host_of 0 "+9.6" None) (os_release "+9.6")
                  "9" "6" eq_refl eq_refl N9 N6) eq_refl).
Defined.

(* ================================================================= *)
(** ** [%d] and [Atoi] *)

Lemma decimal_acc_uint (d : Decimal.uint) : forall acc : positive,
  decimal_acc (NilEmpty.string_of_uint d) (Z.pos acc)
  = Z.pos (Pos.of_uint_acc d acc).
Proof.
  induction d as [|d IH|d IH|d IH|d IH|d IH|d IH|d IH|d IH|d IH|d IH];
    intros acc; cbn [NilEmpty.string_of_uint decimal_acc Pos.of_uint_acc];
    [reflexivity|..]; rewrite <- IH; f_equal;
    match goal with |- context [strconv.byte_val ?c] =>
      set (b := strconv.byte_val c); vm_compute in b; subst b end; lia.
Qed.

Lemma decimal_value_uint (d : Decimal.uint) :
  decimal_value (NilEmpty.string_of_uint d) = Z.of_N (Pos.of_uint d).
Proof.
  unfold decimal_value.
  induction d as [|d IH|d IH|d IH|d IH|d IH|d IH|d IH|d IH|d IH|d IH];
    cbn [NilEmpty.string_of_uint decimal_acc Pos.of_uint]; [reflexivity|..];
    match goal with |- context [strconv.byte_val ?c] =>
      set (b := strconv.byte_val c); vm_compute in b; subst b end;
    cbn [Z.mul Z.add Z.sub Z.opp Z.pos_sub Pos.add Pos.succ Pos.pred_double
         Z.succ_double Z.pred_double Z.double Z.of_N];
    [exact IH | apply decimal_acc_uint ..].
Qed.

Lemma all_digits_uint (d : Decimal.uint) :
  all_digits (NilEmpty.string_of_uint d) = true.
Proof.
  induction d; cbn [NilEmpty.string_of_uint all_digits]; [reflexivity|..];
    rewrite IHd; reflexivity.
Qed.

Lemma fmt_d_pos (p : positive) :
  fmt_d (Z.pos p) = NilEmpty.string_of_uint (Pos.to_uint p)
  /\ numeral (NilEmpty.string_of_uint (Pos.to_uint p))
  /\ decimal_value (NilEmpty.string_of_uint (Pos.to_uint p)) = Z.pos p.
Proof.
  pose proof (Unsigned.to_uint_nonnil p) as NN.
  split; [|split; [split|]].
  - unfold fmt_d. cbn [Z.to_int NilZero.string_of_int].
    destruct (Pos.to_uint p); [congruence | reflexivity ..].
  - destruct (Pos.to_uint p); [congruence | discriminate ..].
  - apply all_digits_uint.
  - now rewrite decimal_value_uint, Unsigned.of_to.
Qed.

(** X11.  What [%d] prints for an [int], [Atoi] reads back without
    error. *)
Theorem Atoi_fmt_d (n : Z)
  (Hrange : strconv.minInt <= n <= strconv.maxInt) :
  strconv.Atoi (fmt_d n) = (n, None).
Proof.
  change strconv.minInt with (-9223372036854775808) in Hrange.
  change strconv.maxInt with 9223372036854775807 in Hrange.
  destruct n as [|p|p].
  - reflexivity.
  - destruct (fmt_d_pos p) as (F & N & V). rewrite F, (Atoi_numeral _ N), V.
    change strconv.maxInt with 9223372036854775807.
    destruct (Z.leb_spec (Z.pos p) 9223372036854775807); [reflexivity | lia].
  - destruct (fmt_d_pos p) as (F & N & V).
    assert (E : fmt_d (Z.neg p)
                = String "-"%char (NilEmpty.string_of_uint (Pos.to_uint p))).
    { unfold fmt_d in *. cbn [Z.to_int NilZero.string_of_int] in *. now rewrite F. }
    rewrite E, (Atoi_minus _ N), V. change (2 ^ 63) with 9223372036854775808.
    destruct (Z.leb_spec (Z.pos p) 9223372036854775808); [reflexivity | lia].
Qed.

Lemma Atoi_fmt_d_witness :
  strconv.minInt <= -42 <= strconv.maxInt
  /\ strconv.Atoi (fmt_d (-42)) = (-42, None).
Proof.
  assert (R : strconv.minInt <= -42 <= strconv.maxInt) by (vm_compute; split; discriminate).
  split; [exact R|]. exact (Atoi_fmt_d (-42) R).
Defined.

(* ================================================================= *)
(** ** [strings.Index] finds the first instance *)

Lemma Index_first (s sub pre post : string) :
  s = pre ++ sub ++ post -> 0 <= strings.Index s sub <= len pre.
Proof.
  intros ->. induction pre as [|d pre IH]; rewrite Index_eq.
  - assert (E : strings.HasPrefix ("" ++ sub ++ post) sub = true)
      by (apply HasPrefix_spec; now exists post).
    rewrite E. unfold len. simpl. lia.
  - rewrite len_String. pose proof (len_nonneg pre).
    destruct (strings.HasPrefix _ sub); [lia|]. simpl append. cbv zeta iota.
    destruct (Z.eqb_spec (strings.Index (pre ++ sub ++ post) sub) (-1)); lia.
Qed.

(** X12.  [strings.Index] returns -1 exactly when the text has no
    instance of [sub], and otherwise the offset of an instance before
    which no other instance starts. *)
Theorem Index_spec (s sub : string) :
  (strings.Index s sub = -1 <-> ~ occurs sub s)
  /\ (forall i,
         0 <= i ->
         (strings.Index s sub = i <->
          (exists pre post, s = pre ++ sub ++ post /\ len pre = i)
          /\ (forall pre post, s = pre ++ sub ++ post -> i <= len pre))).
Proof.
  split; [apply Index_none|]. intros i Hi. split.
  - intros <-. split.
    + destruct (Index_found s sub Hi) as (pre & post & E & L). now exists pre, post.
    + intros pre post E. apply (Index_first s sub pre post E).
  - intros [(pre & post & E & L) Min].
    pose proof (Index_first s sub pre post E) as [P U].
    destruct (Index_found s sub P) as (pre' & post' & E' & L').
    specialize (Min pre' post' E'). lia.
Qed.

Lemma Index_spec_witness :
  0 <= 32
  /\ strings.Index (os_release "9.6") "VERSION_ID=" = 32
  /\ (forall pre post,
         os_release "9.6" = pre ++ "VERSION_ID=" ++ post -> 32 <= len pre).
Proof.
  assert (P : 0 <= 32) by lia.
  assert (I : strings.Index (os_release "9.6") "VERSION_ID=" = 32) by reflexivity.
  split; [exact P|]. split; [exact I|].
  exact (proj2 (proj1 (proj2 (Index_spec (os_release "9.6") "VERSION_ID=") 32 P) I)).
Defined.

(* ================================================================= *)
(** ** [Atoi] told from the text *)

Section AtoiByText.

Import strconv.

Lemma non_digit_fast c :
  is_digit c = false -> ((byte_val c - 48) mod 256 >? 9) = true.
Proof.
  intros D. unfold is_digit in D. pose proof (byte_val_range c).
  destruct (Z_lt_le_dec (byte_val c) 48).
  - replace ((byte_val c - 48) mod 256) with (byte_val c - 48 + 256)
      by (apply Z.mod_unique_pos with (q := -1); lia).
    destruct (Z.gtb_spec (byte_val c - 48 + 256) 9); [reflexivity | lia].
  - rewrite Z.mod_small by lia.
    destruct (Z.gtb_spec (byte_val c - 48) 9); [reflexivity|].
    apply andb_false_iff in D as [D|D]; apply Z.leb_gt in D; lia.
Qed.

Lemma Atoi_fast_loop_junk ds c t : forall n,
  all_digits ds = true -> is_digit c = false ->
  Atoi_fast_loop (ds ++ String c t) n = (0, Some ErrSyntax).
Proof.
  induction ds as [|d ds IH]; intros n A D.
  - cbn [append Atoi_fast_loop]. now rewrite (non_digit_fast c D).
  - cbn [all_digits] in A. apply andb_true_iff in A as [Dd A].
    pose proof (is_digit_val d Dd). cbn [append Atoi_fast_loop].
    rewrite Z.mod_small by lia.
    destruct (Z.gtb_spec (byte_val d - 48) 9); [lia|]. now apply IH.
Qed.

(** The loop of [ParseUint] over digits and then more text: it goes on
    with the value of the digits, or stops at the digit with which the
    value exceeds 64 bits. *)
Lemma ParseUint_loop_app ds rest : forall n,
  all_digits ds = true -> 0 <= n <= maxUint64 ->
  ParseUint_loop (maxUint64 / 10 + 1) (2 ^ 64 - 1) (ds ++ rest) n =
  if decimal_acc ds n <=? maxUint64
  then ParseUint_loop (maxUint64 / 10 + 1) (2 ^ 64 - 1) rest (decimal_acc ds n)
  else (maxUint64, Some ErrRange).
Proof.
  rewrite cutoff64. change maxUint64 with 18446744073709551615.
  change (2 ^ 64 - 1) with 18446744073709551615.
  induction ds as [|c s IH]; intros n A Hn.
  - cbn [append decimal_acc].
    destruct (Z.leb_spec n 18446744073709551615); [reflexivity | lia].
  - cbn [all_digits] in A. apply andb_true_iff in A as [D A].
    pose proof (is_digit_val c D) as Hd.
    cbn [append ParseUint_loop decimal_acc]. fold (is_digit c). rewrite D.
    change (2 ^ 64) with 18446744073709551616.
    pose proof (decimal_acc_ge s (n * 10 + (byte_val c - 48)) A) as G.
    destruct (Z.geb_spec n 1844674407370955162) as [C|C].
    + destruct (Z.leb_spec (decimal_acc s (n * 10 + (byte_val c - 48)))
                  18446744073709551615); [lia | reflexivity].
    + rewrite (Z.mod_small (n * 10)) by lia.
      destruct (Z_lt_le_dec (n * 10 + (byte_val c - 48)) 18446744073709551616)
        as [S|B].
      * rewrite Z.mod_small by lia.
        destruct (Z.ltb_spec (n * 10 + (byte_val c - 48)) (n * 10)); [lia|].
        destruct (Z.gtb_spec (n * 10 + (byte_val c - 48)) 18446744073709551615);
          [lia|].
        cbn [orb]. apply IH; [assumption | lia].
      * replace ((n * 10 + (byte_val c - 48)) mod 18446744073709551616)
          with (n * 10 + (byte_val c - 48) - 18446744073709551616).
        2:{ apply Z.mod_unique_pos with (q := 1); lia. }
        destruct (Z.ltb_spec (n * 10 + (byte_val c - 48) - 18446744073709551616)
                    (n * 10)); [|lia].
        cbn [orb].
        destruct (Z.leb_spec (decimal_acc s (n * 10 + (byte_val c - 48)))
                    18446744073709551615); [lia | reflexivity].
Qed.

Lemma leading_digits_all u : all_digits u = true -> leading_digits u = u.
Proof.
  induction u as [|c u IH]; [reflexivity|]. cbn [all_digits leading_digits].
  rewrite andb_true_iff. intros [D A]. now rewrite D, (IH A).
Qed.

Lemma leading_digits_digits u : all_digits (leading_digits u) = true.
Proof.
  induction u as [|c u IH]; [reflexivity|]. cbn [leading_digits].
  destruct (is_digit c) eqn:D; [|reflexivity]. cbn [all_digits]. now rewrite D.
Qed.

Lemma leading_digits_junk u :
  all_digits u = false ->
  exists c t, u = leading_digits u ++ String c t /\ is_digit c = false.
Proof.
  induction u as [|d u IH]; [discriminate|]. cbn [all_digits leading_digits].
  destruct (is_digit d) eqn:D.
  - cbn [andb]. intros A. destruct (IH A) as (c & t & E & N).
    exists c, t. split; [|exact N]. cbn [append]. now rewrite <- E.
  - intros _. now exists d, u.
Qed.

Lemma leading_digits_length u :
  (String.length (leading_digits u) <= String.length u)%nat.
Proof.
  induction u as [|c u IH]; [reflexivity|]. cbn [leading_digits].
  destruct (is_digit c); simpl; lia.
Qed.

Lemma unsigned_part_length s :
  (String.length (unsigned_part s) <= String.length s)%nat.
Proof. destruct s as [|c s]; [reflexivity|]. simpl. destruct (is_sign c); simpl; lia. Qed.

(** A component of fewer than twenty bytes cannot exceed 64 bits. *)
Lemma digits_value_short s :
  (String.length s < 20)%nat -> 0 <= digits_value s <= maxUint64.
Proof.
  intros L. unfold digits_value, decimal_value.
  pose proof (leading_digits_digits (unsigned_part s)) as A.
  pose proof (decimal_acc_ge _ 0 A ltac:(lia)).
  pose proof (decimal_acc_lt _ 0 A ltac:(lia)) as U.
  pose proof (leading_digits_length (unsigned_part s)).
  pose proof (unsigned_part_length s).
  assert (10 ^ len (leading_digits (unsigned_part s)) <= 10 ^ 19)
    by (apply Z.pow_le_mono_r; unfold len; lia).
  change maxUint64 with 18446744073709551615. lia.
Qed.

(** [Atoi] on digits followed by a byte that is not a digit. *)
Lemma Atoi_junk c0 s' ds c t :
  unsigned_part (String c0 s') = ds ++ String c t ->
  all_digits ds = true -> is_digit c = false ->
  Atoi (String c0 s')
  = if decimal_value ds <=? maxUint64 then (0, Some ErrSyntax)
    else (if negative (String c0 s') then minInt else maxInt, Some ErrRange).
Proof.
  intros U A D. cbn [unsigned_part negative] in *.
  pose proof (decimal_acc_ge ds 0 A ltac:(lia)) as G.
  pose proof (decimal_acc_lt ds 0 A ltac:(lia)) as L.
  fold (decimal_value ds) in G, L.
  assert (Ll : len ds + 1 <= len (String c0 s')).
  { assert (E : len (ds ++ String c t) <= len (String c0 s')).
    { rewrite <- U. rewrite len_String. destruct (is_sign c0);
        [lia | rewrite len_String; lia]. }
    rewrite len_append, len_String in E. pose proof (len_nonneg t). lia. }
  pose proof (len_nonneg ds) as P.
  unfold Atoi. change maxUint64 with 18446744073709551615.
  destruct (Z.ltb_spec 0 (len (String c0 s'))); [|lia].
  destruct (Z.ltb_spec (len (String c0 s')) 19) as [Short|Long]; cbn [andb].
  - rewrite U.
    assert (N1 : (len (ds ++ String c t) <? 1) = false).
    { apply Z.ltb_ge. rewrite len_append, len_String.
      pose proof (len_nonneg t). lia. }
    rewrite N1, (Atoi_fast_loop_junk ds c t 0 A D).
    assert (10 ^ len ds <= 10 ^ 18) by (apply Z.pow_le_mono_r; lia).
    destruct (Z.leb_spec (decimal_value ds) 18446744073709551615);
      [reflexivity | lia].
  - unfold ParseInt. rewrite U.
    assert (PU : ParseUint (ds ++ String c t)
                 = ParseUint_loop (maxUint64 / 10 + 1) (2 ^ 64 - 1)
                     (ds ++ String c t) 0) by (destruct ds; reflexivity).
    rewrite PU.
    rewrite (ParseUint_loop_app ds (String c t) 0 A) by (unfold maxUint64; lia).
    fold (decimal_value ds). change maxUint64 with 18446744073709551615.
    destruct (Z.leb_spec (decimal_value ds) 18446744073709551615).
    + cbn [ParseUint_loop]. fold (is_digit c). now rewrite D.
    + change (2 ^ (intSize - 1)) with 9223372036854775808.
      change minInt with (-9223372036854775808).
      change maxInt with 9223372036854775807.
      destruct (Ascii.eqb c0 "-"%char); reflexivity.
Qed.

Lemma sign_cases c : is_sign c = true -> c = "-"%char \/ c = "+"%char.
Proof.
  unfold is_sign. rewrite orb_true_iff, !Ascii.eqb_eq. tauto.
Qed.

Lemma Atoi_text (s : string) : Atoi s = Atoi_by_text s.
Proof.
  destruct s as [|c0 s']; [reflexivity|].
  unfold Atoi_by_text, decimal_integer, signed_value, digits_value.
  change maxInt with 9223372036854775807. change minInt with (-9223372036854775808).
  destruct (unsigned_part (String c0 s')) as [|d u] eqn:U.
  - (* a sign and nothing else *)
    cbn [unsigned_part] in U. destruct (is_sign c0) eqn:S; [|discriminate].
    subst s'. destruct (sign_cases c0 S) as [-> | ->]; reflexivity.
  - destruct (all_digits (String d u)) eqn:A.
    + (* a decimal integer *)
      rewrite (leading_digits_all _ A).
      assert (N : numeral (String d u)) by (split; [discriminate | exact A]).
      destruct (numeral_bounds _ N) as (_ & G & _).
      cbn [unsigned_part negative] in *. destruct (is_sign c0) eqn:S.
      * subst s'. destruct (sign_cases c0 S) as [-> | ->].
        -- rewrite (Atoi_minus _ N). change (Ascii.eqb "-"%char "-"%char) with true.
           cbv iota. change (2 ^ 63) with 9223372036854775808.
           destruct (Z.leb_spec (decimal_value (String d u)) 9223372036854775808);
             destruct (Z.gtb_spec (- decimal_value (String d u)) 9223372036854775807);
             destruct (Z.ltb_spec (- decimal_value (String d u)) (-9223372036854775808));
             try lia; reflexivity.
        -- rewrite (Atoi_plus _ N), (Atoi_numeral _ N).
           change (Ascii.eqb "+"%char "-"%char) with false. cbv iota.
           change maxInt with 9223372036854775807.
           destruct (Z.leb_spec (decimal_value (String d u)) 9223372036854775807);
             destruct (Z.gtb_spec (decimal_value (String d u)) 9223372036854775807);
             destruct (Z.ltb_spec (decimal_value (String d u)) (-9223372036854775808));
             try lia; reflexivity.
      * injection U as -> ->. rewrite (Atoi_numeral _ N).
        assert (M : Ascii.eqb d "-"%char = false).
        { unfold is_sign in S. now apply orb_false_iff in S as [S _]. }
        rewrite M. change maxInt with 9223372036854775807.
        destruct (Z.leb_spec (decimal_value (String d u)) 9223372036854775807);
          destruct (Z.gtb_spec (decimal_value (String d u)) 9223372036854775807);
          destruct (Z.ltb_spec (decimal_value (String d u)) (-9223372036854775808));
          try lia; reflexivity.
    + (* digits, then a byte that is not a digit *)
      destruct (leading_digits_junk _ A) as (c & t & E & D).
      rewrite <- U in E.
      rewrite (Atoi_junk c0 s' _ c t E (leading_digits_digits _) D).
      rewrite U. change maxInt with 9223372036854775807.
      change minInt with (-9223372036854775808). reflexivity.
Qed.

End AtoiByText.

Lemma Atoi_by_text_cases (s : string) :
  (decimal_integer s = false -> digits_value s <= strconv.maxUint64 ->
   Atoi_by_text s = (0, Some strconv.ErrSyntax))
  /\ (above_int s ->
      Atoi_by_text s = (strconv.maxInt, Some strconv.ErrRange)
      /\ negative s = false)
  /\ (below_int s ->
      Atoi_by_text s = (strconv.minInt, Some strconv.ErrRange)
      /\ negative s = true).
Proof.
  unfold above_int, below_int, Atoi_by_text, signed_value.
  assert (G : 0 <= digits_value s).
  { unfold digits_value, decimal_value. apply decimal_acc_ge; [|lia].
    apply leading_digits_digits. }
  change strconv.maxInt with 9223372036854775807.
  change strconv.minInt with (-9223372036854775808).
  change strconv.maxUint64 with 18446744073709551615.
  destruct (decimal_integer s); [|split; [|split]].
  - split; [discriminate|].
    destruct (negative s); split; intros H;
      repeat match goal with
             | |- context [?a >? ?b] => destruct (Z.gtb_spec a b)
             | |- context [?a <? ?b] => destruct (Z.ltb_spec a b)
             end; try lia; split; reflexivity.
  - intros _ L. destruct (Z.leb_spec (digits_value s) 18446744073709551615);
      [reflexivity | lia].
  - intros [L ->]. destruct (Z.leb_spec (digits_value s) 18446744073709551615);
      [lia | now split].
  - intros [L ->]. destruct (Z.leb_spec (digits_value s) 18446744073709551615);
      [lia | now split].
Qed.

(** A major of twenty nines is a decimal integer that fails to parse
    with a range error, counts as the largest [int] and passes the
    check; so does the same major followed by a letter, which is not a
    decimal integer. *)
Lemma out_of_range_major_is_not_zero :
  ReadFile_result host_huge_version "/etc/os-release"
  = inl (os_release "99999999999999999999")
  /\ isRHEL (os_release "99999999999999999999") = true
  /\ versionField (os_release "99999999999999999999")
     = Some "99999999999999999999"
  /\ strings.Split "99999999999999999999" "." = ["99999999999999999999"]
  /\ strconv.Atoi "99999999999999999999"
     = (9223372036854775807, Some strconv.ErrRange)
  /\ fst (parseVersion "99999999999999999999") <> 0
  /\ result_of validateOS host_huge_version = None
  /\ decimal_integer "99999999999999999999x" = false
  /\ strconv.Atoi "99999999999999999999x"
     = (9223372036854775807, Some strconv.ErrRange)
  /\ result_of validateOS host_huge_then_junk = None.
Proof.
  repeat (split; [vm_compute; reflexivity|]).
  split; [vm_compute; discriminate|].
  repeat (split; [vm_compute; reflexivity|]). vm_compute. reflexivity.
Qed.

(** C10, as the code has it.  The errors of [Atoi] are dropped and its
    value is used, for the major and for the minor alike.  What [Atoi]
    returns is told by the text of the component.  A component that is
    not a decimal integer (empty, a sign alone, or with a byte that is
    not a digit anywhere after the sign, as in abc or in the minor of
    9.6-beta) counts as 0: such a major makes the check fail with the
    unsupported-version message that quotes the version, not with the
    message that the version cannot be determined, and such a minor
    leaves the outcome to the major.  The one exception is a component
    whose leading digits exceed 64 bits, which no component of fewer
    than twenty bytes does.  A component out of the range of [int]
    counts as the bound of [int] on the side of its sign: the largest
    [int] without a minus, the smallest with one. *)
Theorem version_parse_failures :
  (forall s,
      strconv.Atoi s = Atoi_by_text s
      /\ (decimal_integer s = false -> (String.length s < 20)%nat ->
          strconv.Atoi s = (0, Some strconv.ErrSyntax))
      /\ (decimal_integer s = false -> digits_value s <= strconv.maxUint64 ->
          strconv.Atoi s = (0, Some strconv.ErrSyntax))
      /\ (above_int s ->
          strconv.Atoi s = (strconv.maxInt, Some strconv.ErrRange)
          /\ negative s = false)
      /\ (below_int s ->
          strconv.Atoi s = (strconv.minInt, Some strconv.ErrRange)
          /\ negative s = true))
  /\ (forall h data version,
         ReadFile_result h "/etc/os-release" = inl data ->
         isRHEL data = true ->
         versionField data = Some version ->
         let parts := strings.Split version "." in
         let major := fst (parseVersion version) in
         let minor := snd (parseVersion version) in
         let two := Z.of_nat (List.length parts) > 1 in
         (decimal_integer (index0 parts) = false ->
          digits_value (index0 parts) <= strconv.maxUint64 ->
          major = 0
          /\ result_of validateOS h = Some (msg_unsupported_version version)
          /\ result_of validateOS h <> Some msg_no_version)
         /\ (two -> decimal_integer (index1 parts) = false ->
             digits_value (index1 parts) <= strconv.maxUint64 ->
             minor = 0 /\ (result_of validateOS h = None <-> major > 9))
         /\ (above_int (index0 parts) ->
             major = strconv.maxInt /\ result_of validateOS h = None)
         /\ (below_int (index0 parts) ->
             major = strconv.minInt
             /\ result_of validateOS h = Some (msg_unsupported_version version))
         /\ (two -> above_int (index1 parts) ->
             minor = strconv.maxInt
             /\ (result_of validateOS h = None <-> major >= 9))
         /\ (two -> below_int (index1 parts) ->
             minor = strconv.minInt
             /\ (result_of validateOS h = None <-> major > 9)))
  /\ (forall h v,
         ReadFile_result h "/etc/os-release" = inl (os_release v) ->
         (v = "abc" \/ v = "9.6-beta" \/ v = "9x.7" \/ v = "9.x" \/ v = "9." ->
          result_of validateOS h = Some (msg_unsupported_version v))
         /\ (v = "10.x" \/ v = "10.0-beta" -> result_of validateOS h = None)).
Proof.
  assert (Text : forall s,
      strconv.Atoi s = Atoi_by_text s
      /\ (decimal_integer s = false -> (String.length s < 20)%nat ->
          strconv.Atoi s = (0, Some strconv.ErrSyntax))
      /\ (decimal_integer s = false -> digits_value s <= strconv.maxUint64 ->
          strconv.Atoi s = (0, Some strconv.ErrSyntax))
      /\ (above_int s ->
          strconv.Atoi s = (strconv.maxInt, Some strconv.ErrRange)
          /\ negative s = false)
      /\ (below_int s ->
          strconv.Atoi s = (strconv.minInt, Some strconv.ErrRange)
          /\ negative s = true)).
  { intros s. pose proof (Atoi_text s) as E.
    destruct (Atoi_by_text_cases s) as (S & A & B). rewrite E.
    split; [reflexivity|]. split; [|split; [exact S | split; [exact A | exact B]]].
    intros D L. apply (S D). now apply digits_value_short. }
  split; [exact Text|]. split.
  - intros h data version Hrel Hrhel Hver parts major minor two.
    pose proof (validateOS_versioned h data version Hrel Hrhel Hver) as V.
    pose proof (validateOS_passes_iff h data version Hrel Hrhel Hver) as P.
    fold major minor in V, P. unfold meetsMinimum in P.
    assert (Ma : major = fst (strconv.Atoi (index0 parts))) by reflexivity.
    assert (Mi : two -> minor = fst (strconv.Atoi (index1 parts))).
    { intros T. unfold minor, parseVersion. fold parts. cbn [snd].
      destruct (Z.gtb_spec (Z.of_nat (List.length parts)) 1);
        [reflexivity | unfold two in T; lia]. }
    destruct (Text (index0 parts)) as (_ & _ & S0 & A0 & B0).
    destruct (Text (index1 parts)) as (_ & _ & S1 & A1 & B1).
    change strconv.maxInt with 9223372036854775807 in *.
    change strconv.minInt with (-9223372036854775808) in *.
    repeat split.
    + rewrite Ma, (S0 H H0). reflexivity.
    + rewrite V, Ma, (S0 H H0). reflexivity.
    + rewrite V, Ma, (S0 H H0). cbn [fst Z.ltb Z.compare orb].
      intros E. apply (msg_version_not_absent version). congruence.
    + rewrite (Mi H), (S1 H0 H1). reflexivity.
    + rewrite P, (Mi H), (S1 H0 H1). cbn [fst]. lia.
    + rewrite P, (Mi H), (S1 H0 H1). cbn [fst]. lia.
    + rewrite Ma, (proj1 (A0 H)). reflexivity.
    + rewrite V, Ma, (proj1 (A0 H)). reflexivity.
    + rewrite Ma, (proj1 (B0 H)). reflexivity.
    + rewrite V, Ma, (proj1 (B0 H)). reflexivity.
    + rewrite (Mi H), (proj1 (A1 H0)). reflexivity.
    + rewrite P, (Mi H), (proj1 (A1 H0)). cbn [fst]. lia.
    + rewrite P, (Mi H), (proj1 (A1 H0)). cbn [fst]. lia.
    + rewrite (Mi H), (proj1 (B1 H0)). reflexivity.
    + rewrite P, (Mi H), (proj1 (B1 H0)). cbn [fst]. lia.
    + rewrite P, (Mi H), (proj1 (B1 H0)). cbn [fst]. lia.
  - intros h v Hrel. rewrite (validateOS_readable h _ Hrel).
    split; intros Hv; split_cases; subst v; vm_compute; reflexivity.
Qed.

Lemma version_parse_failures_witness :
  ReadFile_result host_abc "/etc/os-release" = inl (os_release "abc")
  /\ isRHEL (os_release "abc") = true
  /\ versionField (os_release "abc") = Some "abc"
  /\ decimal_integer (index0 (strings.Split "abc" ".")) = false
  /\ digits_value (index0 (strings.Split "abc" ".")) <= strconv.maxUint64
  /\ result_of validateOS host_abc = Some (msg_unsupported_version "abc").
Proof.
  assert (L : digits_value (index0 (strings.Split "abc" ".")) <= strconv.maxUint64)
    by (vm_compute; discriminate).
  repeat (split; [reflexivity|]). split; [exact L|].
  exact (proj1 (proj2 (proj1 (proj1 (proj2 version_parse_failures)
                                host_abc (os_release "abc") "abc"
                                eq_refl eq_refl eq_refl)
                         eq_refl L))).
Defined.

(* ================================================================= *)
(** ** The version text outside a field *)

Lemma occurs_trans (a b c : string) : occurs a b -> occurs b c -> occurs a c.
Proof.
  intros (p1 & q1 & ->) (p2 & q2 & ->). exists (p2 ++ p1), (q1 ++ q2).
  now rewrite !append_assoc.
Qed.

Lemma occurs_in_join (sep l : string) (parts : list string) :
  In l parts -> occurs l (String.concat sep parts).
Proof.
  induction parts as [|p ps IH]; [intros []|]. intros [->|I].
  - destruct ps as [|q ps]; cbn [String.concat].
    + exists "", "". cbn [append]. now rewrite append_nil_r.
    + now exists "", (sep ++ String.concat sep (q :: ps)).
  - destruct ps as [|q ps]; [destruct I|].
    destruct (IH I) as (pre & post & E).
    change (String.concat sep (p :: q :: ps))
      with (p ++ sep ++ String.concat sep (q :: ps)).
    rewrite E. exists (p ++ sep ++ pre), post. now rewrite !append_assoc.
Qed.

(** A field of the release file is an occurrence of its key and equals
    sign. *)
Lemma has_field_occurs (key data : string) :
  has_field key data = true -> occurs (key ++ "=") data.
Proof.
  unfold has_field. rewrite existsb_exists. intros (line & I & P).
  apply HasPrefix_spec in P as [post ->].
  apply occurs_trans with (b := (key ++ "=") ++ post).
  - exists "", post. reflexivity.
  - destruct (Split_join_bounded newline_byte (String.length data) data (le_n _))
      as [J _].
    rewrite <- J. now apply occurs_in_join.
Qed.

(** In both release files no line is a VERSION_ID field, yet the check
    does not fail with the message that the version cannot be
    determined: it takes the version of the comment and passes, and it
    takes the version of the other key and reports it as unsupported. *)
Lemma version_text_outside_a_field :
  ReadFile_result host_commented_version "/etc/os-release"
  = inl release_commented_version
  /\ isRHEL release_commented_version = true
  /\ has_field "VERSION_ID" release_commented_version = false
  /\ strings.Index release_commented_version "VERSION_ID=" = 33
  /\ result_of validateOS host_commented_version = None
  /\ ReadFile_result host_other_key "/etc/os-release" = inl release_other_key
  /\ isRHEL release_other_key = true
  /\ has_field "VERSION_ID" release_other_key = false
  /\ result_of validateOS host_other_key = Some (msg_unsupported_version "8.1")
  /\ result_of validateOS host_commented_version <> Some msg_no_version
  /\ result_of validateOS host_other_key <> Some msg_no_version.
Proof.
  repeat (split; [vm_compute; reflexivity|]).
  split; vm_compute; discriminate.
Qed.

(** C8, as the code has it.  On a readable release file of the
    supported distribution the check fails with the message that the
    version cannot be determined exactly when the text VERSION_ID= occurs
    nowhere in the content; such a content has no VERSION_ID field.
    The message is neither the unsupported-distribution message nor an
    unsupported-version message. *)
Theorem version_field_absent (h : Host) (data : string)
  (Hrel : ReadFile_result h "/etc/os-release" = inl data)
  (Hrhel : isRHEL data = true) :
  (result_of validateOS h = Some "unable to determine OS version" <->
   ~ occurs "VERSION_ID=" data)
  /\ (~ occurs "VERSION_ID=" data -> has_field "VERSION_ID" data = false)
  /\ "unable to determine OS version" <> msg_unsupported_os
  /\ (forall v, "unable to determine OS version" <> msg_unsupported_version v).
Proof.
  split; [|split; [|split]].
  - rewrite (validateOS_readable h data Hrel), Hrhel, <- Index_none. cbn [negb].
    unfold versionField.
    destruct (Z.eqb_spec (strings.Index data "VERSION_ID=") (-1)) as [E|N].
    + now split.
    + cbv zeta. split; [|contradiction].
      destruct (_ || _); [|discriminate].
      intros E. exfalso.
      match type of E with
      | Some (msg_unsupported_version ?v) = _ =>
          apply (msg_version_not_absent v)
      end.
      unfold msg_no_version. congruence.
  - intros A. destruct (has_field "VERSION_ID" data) eqn:F; [|reflexivity].
    exfalso. apply A. now apply (has_field_occurs "VERSION_ID" data).
  - exact msg_absent_not_os.
  - intros v E. now apply (msg_version_not_absent v).
Qed.

Lemma version_field_absent_witness :
  ReadFile_result host_no_version "/etc/os-release" = inl release_without_version
  /\ isRHEL release_without_version = true
  /\ ~ occurs "VERSION_ID=" release_without_version
  /\ result_of validateOS host_no_version = Some "unable to determine OS version"
  /\ has_field "VERSION_ID" release_without_version = false.
Proof.
  assert (A : ~ occurs "VERSION_ID=" release_without_version)
    by (apply Index_none; vm_compute; reflexivity).
  split; [reflexivity|]. split; [reflexivity|]. split; [exact A|].
  split.
  - exact (proj2 (proj1 (version_field_absent host_no_version
                           release_without_version eq_refl eq_refl)) A).
  - exact (proj1 (proj2 (version_field_absent host_no_version
                           release_without_version eq_refl eq_refl)) A).
Defined.
